(** * otel-goexpert: the two-hop CEP -> temperature pipeline

    A shallow embedding of [servicea/main.go] (the entry orchestrator) and
    [serviceb/main.go] (the downstream orchestrator), and the properties
    their specification states about them.

    Go strings and byte slices are sequences of bytes: [string] here.
    Go [int] status codes are [Z]; [float64] is the binary64 type [float],
    with the compiler's freedom to fuse [x*y + z] into one rounding.
    The outside world (net/http round trips, encoding/json, net/url) is a
    record of functions, [World], over which every statement quantifies. *)

From Stdlib Require Import String Ascii List ZArith Bool Lia Floats.
From Stdlib Require Import Numbers.DecimalString.
Import ListNotations.

#[local] Set Warnings "-inexact-float".

Open Scope string_scope.
Open Scope bool_scope.

(** ** Byte strings *)

Definition bytes := string.

Fixpoint forall_bytes (p : ascii -> bool) (s : string) : bool :=
  match s with
  | EmptyString => true
  | String c s' => p c && forall_bytes p s'
  end.

(** The ten ASCII digit characters, listed. *)
Definition ascii_digits : list ascii :=
  ["0"; "1"; "2"; "3"; "4"; "5"; "6"; "7"; "8"; "9"]%char.

Definition is_ascii_digit (c : ascii) : bool :=
  existsb (Ascii.eqb c) ascii_digits.

(** ** The fragment of Go's [regexp] (RE2 syntax) that the services use

    [MatchString] reports whether the string contains any match of the
    expression, so the anchors are what ties a match to the whole text.
    Without the [m] flag [^] holds only at the beginning of the text and
    [$] only at its end; [\d] is the Perl class [[0-9]]. A match of these
    expressions consumes ASCII bytes only, so matching is done on bytes. *)

Module Regexp.

Inductive regex : Type :=
| BeginText                          (* ^ *)
| EndText                            (* $ *)
| PerlDigit                          (* \d *)
| Repeat (n : nat) (r : regex)       (* r{n} *)
| Concat (r1 r2 : regex).

(** [\d]: a byte between '0' (48) and '9' (57). *)
Definition perl_digit (c : ascii) : bool :=
  (48 <=? nat_of_ascii c)%nat && (nat_of_ascii c <=? 57)%nat.

(** Backtracking matcher in continuation-passing style: [at_start] tells
    whether the current position is offset 0 of the text, [s] is the
    text from the current position on, [k] is what remains to match. *)
Fixpoint step (r : regex) (at_start : bool) (s : string)
         (k : bool -> string -> bool) {struct r} : bool :=
  match r with
  | BeginText => at_start && k at_start s
  | EndText => match s with EmptyString => k at_start s | String _ _ => false end
  | PerlDigit =>
      match s with
      | EmptyString => false
      | String c s' => perl_digit c && k false s'
      end
  | Repeat n r' =>
      (fix times (n : nat) (at_start : bool) (s : string) : bool :=
         match n with
         | O => k at_start s
         | S n' => step r' at_start s (fun b s' => times n' b s')
         end) n at_start s
  | Concat r1 r2 => step r1 at_start s (fun b s' => step r2 b s' k)
  end.

(** Unanchored search: try a match at every offset, leftmost first. *)
Fixpoint search (r : regex) (at_start : bool) (s : string) : bool :=
  step r at_start s (fun _ _ => true)
  || match s with
     | EmptyString => false
     | String _ s' => search r false s'
     end.

Definition MatchString (r : regex) (s : string) : bool := search r true s.

(** [regexp.MustCompile(`^\d{8}$`)] *)
Definition cep_pattern : regex :=
  Concat BeginText (Concat (Repeat 8 PerlDigit) EndText).

End Regexp.

(** ** Data model (the struct types of both [main.go] files) *)

(** [CepRequest] and [ErrorResponse] are declared identically in both
    services. *)
Record CepRequest : Type := { Cep : string }.

Record ErrorResponse : Type := { Message : string }.

Record ViaCepResponse : Type := {
  vc_Cep : string;
  Logradouro : string;
  Complemento : string;
  Bairro : string;
  Localidade : string;
  Uf : string;
  Ibge : string;
  Gia : string;
  Ddd : string;
  Siafi : string;
  Erro : bool
}.

Record WeatherLocation : Type := { Name : string }.
Record WeatherCurrent : Type := { wc_TempC : float }.
Record WeatherResponse : Type := {
  Location : WeatherLocation;
  Current : WeatherCurrent
}.

Record WeatherResult : Type := {
  City : string;
  TempC : float;
  TempF : float;
  TempK : float
}.

(** What a handler hands to [json.NewEncoder(w).Encode]. *)
Inductive payload : Type :=
| PError (e : ErrorResponse)
| PResult (r : WeatherResult).

(** ** Go [error] values

    [New] is a package-level sentinel made by [errors.New]; [Wrap] is
    [fmt.Errorf(prefix + ": %w", cause)]; [Errorf] is a [fmt.Errorf]
    without [%w]; [Foreign] is an error value made by net/http, io or
    encoding/json. *)
Inductive error : Type :=
| New (text : string)
| Wrap (prefix : string) (cause : error)
| Errorf (message : string)
| Foreign (origin : string).

(** Identity of error values. Only sentinels are ever the same value:
    the two sentinels of a package differ in their text, and every other
    error is allocated where it is returned. *)
Definition same_error (e target : error) : bool :=
  match e, target with
  | New t, New t' => String.eqb t t'
  | _, _ => false
  end.

(** [errors.Is]: walk the [%w] chain looking for the target. *)
Fixpoint errors_Is (err target : error) : bool :=
  same_error err target
  || match err with
     | Wrap _ cause => errors_Is cause target
     | _ => false
     end.

Inductive result (A : Type) : Type :=
| Ok (a : A)
| Err (e : error).
Arguments Ok {A} a.
Arguments Err {A} e.

(** [%d] *)
Definition format_int (z : Z) : string := NilEmpty.string_of_int (Z.to_int z).

(** ** The outside world *)

(** Outcome of [client.Do]: either an error, or a response with its status
    code and what reading its body to the end gives ([None]: the read
    fails). Every client is built on [otelhttp.NewTransport]: during the
    round trip the transport has a span of its own under the span of the
    request's context; that span is the library's and is no event here. *)
Inductive do_result : Type :=
| DoError
| Response (StatusCode : Z) (Body : option bytes).

Record World : Type := {
  (* configuration read at start-up *)
  serviceBURL : string;
  weatherApiKey : string;
  (* net/http: does http.NewRequestWithContext accept method and URL,
     and what a round trip of the request gives *)
  http_NewRequest : string -> string -> bool;
  client_Do : string -> string -> bytes -> do_result;
  (* io.ReadAll when the read of a response body fails: the bytes it
     returns beside its error *)
  read_before_failure : string -> string -> bytes -> bytes;
  (* encoding/json, one function per Go type coded *)
  json_Marshal_cep : string -> option bytes;
  json_Decode_CepRequest : bytes -> option CepRequest;
  json_Unmarshal_ViaCep : bytes -> option ViaCepResponse;
  json_Decode_Weather : bytes -> option WeatherResponse;
  json_Encode : payload -> option bytes;
  (* net/url *)
  url_QueryEscape : string -> string;
  (* the compiler: is [x*y + z] on float64 fused into one operation with a
     single rounding (Go allows it, and does it on some architectures) or
     rounded after the product and after the sum *)
  fused_multiply_add : bool
}.

(** A [json.Decoder] over a body stream: a failing read is a failing
    decode. *)
Definition decode_stream {A : Type} (dec : bytes -> option A)
           (body : option bytes) : option A :=
  match body with
  | Some b => dec b
  | None => None
  end.

(** ** Spans, contexts and observable effects *)

Definition span := nat.

Record context : Type := { ctx_span : option span }.

Record Request : Type := { req_Context : context; req_Body : option bytes }.

Inductive event : Type :=
| SpanStart (id : span) (name : string) (parent : option span)
| SpanEnd (id : span)
| SpanAddEvent (id : span) (name : string) (http_status_code : Z)
| HeaderSet (key value : string)
| WriteHeader (statusCode : Z)
| Write (b : bytes)
| Encode (v : payload)
| RequestHeaderSet (key value : string)
| ClientDo (ctx : context) (method url : string) (body : bytes)
| BodyClose
| LogPrintf (format : string).

(** A computation takes the tracer's next span identifier and returns its
    value, the next identifier and the effects it performed, in order. *)
Definition M (A : Type) : Type := span -> A * span * list event.

Definition ret {A : Type} (a : A) : M A := fun n => (a, n, []).

Definition bind {A B : Type} (m : M A) (f : A -> M B) : M B :=
  fun n =>
    let '(a, n1, e1) := m n in
    let '(b, n2, e2) := f a n1 in
    (b, n2, (e1 ++ e2)%list).

Declare Scope go_scope.
Delimit Scope go_scope with go.
Notation "x <- m ;; k" := (bind m (fun x => k))
  (at level 61, m at next level, right associativity) : go_scope.
Notation "' pat <- m ;; k" := (bind m (fun x => match x with pat => k end))
  (at level 61, pat pattern, m at next level, right associativity) : go_scope.
Notation "m ;; k" := (bind m (fun _ => k))
  (at level 61, right associativity) : go_scope.
Open Scope go_scope.

Definition emit (e : event) : M unit := fun n => (tt, n, [e]).

(** [tracer.Start(ctx, name)]: a fresh span whose parent is the span of
    [ctx], and the context that carries it. *)
Definition tracer_Start (ctx : context) (name : string) : M (context * span) :=
  fun n => (({| ctx_span := Some n |}, n), S n, [SpanStart n name (ctx_span ctx)]).

Definition span_End (sp : span) : M unit := emit (SpanEnd sp).

(** [defer f()] followed by the rest of the function body: the deferred
    call runs when the body returns, so the calls deferred last run
    first. *)
Definition defer {A : Type} (deferred : M unit) (body : M A) : M A :=
  a <- body ;; deferred ;; ret a.

(** [trace.SpanFromContext(ctx).AddEvent(name, http.status_code)]; the span
    of a context without one is a no-op span. *)
Definition SpanFromContext_AddEvent (ctx : context) (name : string) (code : Z) : M unit :=
  match ctx_span ctx with
  | Some sp => emit (SpanAddEvent sp name code)
  | None => ret tt
  end.

Definition value_of {A : Type} (m : M A) (n : span) : A := fst (fst (m n)).
Definition events_of {A : Type} (m : M A) (n : span) : list event := snd (m n).

(** ** float64 arithmetic

    The fused multiply-add: the exact product and the addend are added and
    rounded once, to nearest even. The product of two finite doubles is a
    finite number with a mantissa of up to 106 bits; adding at double
    precision aligns the two numbers exactly and rounds the sum. When an
    operand is not finite or the addend is zero, rounding the product
    first changes nothing. *)
Definition fma (x y z : float) : float :=
  match Prim2SF x, Prim2SF y, Prim2SF z with
  | S754_finite sx mx ex, S754_finite sy my ey, S754_finite _ _ _ =>
      SF2Prim (SFadd prec emax
                 (S754_finite (xorb sx sy) (mx * my) (ex + ey)) (Prim2SF z))
  | _, _, _ => (x * y + z)%float
  end.

Definition StatusOK : Z := 200.
Definition StatusNotFound : Z := 404.
Definition StatusUnprocessableEntity : Z := 422.
Definition StatusInternalServerError : Z := 500.

(** ** Service B: the downstream orchestrator (serviceb/main.go) *)

Module ServiceB.

Definition ErrCepNotFound : error := New "cep not found".

Definition isValidCep (cep : string) : bool :=
  let re := Regexp.cep_pattern in
  Regexp.MatchString re cep.

(** [return celsius*1.8 + 32]; [fused] is the compiler's choice for this
    expression. *)
Definition celsiusToFahrenheit (fused : bool) (celsius : float) : float :=
  if fused then fma celsius 1.8 32 else (celsius * 1.8 + 32)%float.

Definition celsiusToKelvin (celsius : float) : float :=
  (celsius + 273)%float.

Definition respondWithError (statusCode : Z) (message : string) (ctx : context) : M unit :=
  SpanFromContext_AddEvent ctx "error_response" statusCode ;;
  emit (HeaderSet "Content-Type" "application/json") ;;
  emit (WriteHeader statusCode) ;;
  emit (Encode (PError {| Message := message |})).

Section WithWorld.
Variable w : World.

(** [fmt.Sprintf("https://viacep.com.br/ws/%s/json/", cep)] *)
Definition viacep_url (cep : string) : string :=
  "https://viacep.com.br/ws/" ++ cep ++ "/json/".

Definition getCepInfo (ctx : context) (cep : string) : M (result string) :=
  '(ctx, sp) <- tracer_Start ctx "get_cep_info" ;;
  defer (span_End sp)
    (let url := viacep_url cep in
     if negb (http_NewRequest w "GET" url) then
       ret (Err (Wrap "error creating request" (Foreign "net/http")))
     else
       emit (ClientDo ctx "GET" url "") ;;
       match client_Do w "GET" url "" with
       | DoError => ret (Err (Wrap "error calling ViaCEP API" (Foreign "net/http")))
       | Response StatusCode Body =>
           defer (emit BodyClose)
             (if negb (StatusCode =? StatusOK)%Z then
                ret (Err (Errorf ("unexpected status code from ViaCEP: " ++ format_int StatusCode)))
              else
                match Body with
                | None => ret (Err (Wrap "error reading response body" (Foreign "io")))
                | Some body =>
                    match json_Unmarshal_ViaCep w body with
                    | None => ret (Err (Wrap "error unmarshaling ViaCEP response" (Foreign "encoding/json")))
                    | Some cepInfo =>
                        if Erro cepInfo then ret (Err ErrCepNotFound)
                        else ret (Ok (Localidade cepInfo))
                    end
                end)
       end).

(** [url.QueryEscape(city)] put into the weather provider's URL by
    [fmt.Sprintf]. *)
Definition weather_url (city : string) : string :=
  let encodedCity := url_QueryEscape w city in
  "https://api.weatherapi.com/v1/current.json?key=" ++ weatherApiKey w
    ++ "&q=" ++ encodedCity ++ "&aqi=no".

Definition getWeatherInfo (ctx : context) (city : string) : M (result WeatherResponse) :=
  '(ctx, sp) <- tracer_Start ctx "get_weather_info" ;;
  defer (span_End sp)
    (let url := weather_url city in
     if negb (http_NewRequest w "GET" url) then
       emit (LogPrintf "Error creating request to Weather API: %v") ;;
       ret (Err (Wrap "error creating request" (Foreign "net/http")))
     else
       emit (ClientDo ctx "GET" url "") ;;
       match client_Do w "GET" url "" with
       | DoError =>
           emit (LogPrintf "Error calling Weather API: %v") ;;
           ret (Err (Wrap "error calling Weather API" (Foreign "net/http")))
       | Response StatusCode Body =>
           defer (emit BodyClose)
             (if negb (StatusCode =? StatusOK)%Z then
                let body := match Body with
                            | Some b => b
                            | None => read_before_failure w "GET" url ""
                            end in
                emit (LogPrintf "Weather API error: status=%d, body=%s") ;;
                ret (Err (Errorf ("unexpected status code from Weather API: "
                                    ++ format_int StatusCode ++ ", body: " ++ body)))
              else
                match decode_stream (json_Decode_Weather w) Body with
                | None =>
                    emit (LogPrintf "Error decoding Weather API response: %v") ;;
                    ret (Err (Wrap "error decoding Weather API response" (Foreign "encoding/json")))
                | Some weather => ret (Ok weather)
                end)
       end).

Definition handleWeatherRequest (r : Request) : M unit :=
  '(ctx, sp) <- tracer_Start (req_Context r) "handle_weather_request" ;;
  defer (span_End sp)
    (match decode_stream (json_Decode_CepRequest w) (req_Body r) with
     | None => respondWithError StatusUnprocessableEntity "invalid zipcode" ctx
     | Some req =>
         if negb (isValidCep (Cep req)) then
           respondWithError StatusUnprocessableEntity "invalid zipcode" ctx
         else
           location <- getCepInfo ctx (Cep req) ;;
           match location with
           | Err err =>
               if errors_Is err ErrCepNotFound then
                 respondWithError StatusNotFound "can not find zipcode" ctx
               else
                 respondWithError StatusInternalServerError "internal server error" ctx
           | Ok location =>
               weather <- getWeatherInfo ctx location ;;
               match weather with
               | Err _ =>
                   respondWithError StatusInternalServerError "internal server error" ctx
               | Ok weather =>
                   let tempC := wc_TempC (Current weather) in
                   let tempF := celsiusToFahrenheit (fused_multiply_add w) tempC in
                   let tempK := celsiusToKelvin tempC in
                   let result := {| City := location; TempC := tempC;
                                    TempF := tempF; TempK := tempK |} in
                   emit (HeaderSet "Content-Type" "application/json") ;;
                   emit (WriteHeader StatusOK) ;;
                   emit (Encode (PResult result))
               end
           end
     end).

End WithWorld.

End ServiceB.

(** ** Service A: the entry orchestrator (servicea/main.go) *)

Module ServiceA.

Definition ErrCepNotFound : error := New "cep not found".
Definition ErrInvalidCep : error := New "invalid cep".

Definition isValidCep (cep : string) : bool :=
  let re := Regexp.cep_pattern in
  Regexp.MatchString re cep.

Definition respondWithError (statusCode : Z) (message : string) (ctx : context) : M unit :=
  SpanFromContext_AddEvent ctx "error_response" statusCode ;;
  emit (HeaderSet "Content-Type" "application/json") ;;
  emit (WriteHeader statusCode) ;;
  emit (Encode (PError {| Message := message |})).

Section WithWorld.
Variable w : World.

Definition callServiceB (ctx : context) (cep : string) : M (result bytes) :=
  '(ctx, sp) <- tracer_Start ctx "call_service_b" ;;
  defer (span_End sp)
    (match json_Marshal_cep w cep with
     | None => ret (Err (Wrap "error marshaling request" (Foreign "encoding/json")))
     | Some reqBody =>
         if negb (http_NewRequest w "POST" (serviceBURL w)) then
           ret (Err (Wrap "error creating request" (Foreign "net/http")))
         else
           emit (RequestHeaderSet "Content-Type" "application/json") ;;
           emit (ClientDo ctx "POST" (serviceBURL w) reqBody) ;;
           match client_Do w "POST" (serviceBURL w) reqBody with
           | DoError => ret (Err (Wrap "error calling service B" (Foreign "net/http")))
           | Response StatusCode Body =>
               defer (emit BodyClose)
                 (match Body with
                  | None => ret (Err (Wrap "error reading response body" (Foreign "io")))
                  | Some body =>
                      if (StatusCode =? StatusNotFound)%Z then ret (Err ErrCepNotFound)
                      else if (StatusCode =? StatusUnprocessableEntity)%Z then ret (Err ErrInvalidCep)
                      else if negb (StatusCode =? StatusOK)%Z then
                        ret (Err (Errorf ("unexpected status code: " ++ format_int StatusCode)))
                      else ret (Ok body)
                  end)
           end
     end).

Definition handleCepRequest (r : Request) : M unit :=
  '(ctx, sp) <- tracer_Start (req_Context r) "handle_cep_request" ;;
  defer (span_End sp)
    (match decode_stream (json_Decode_CepRequest w) (req_Body r) with
     | None => respondWithError StatusUnprocessableEntity "invalid zipcode" ctx
     | Some req =>
         if negb (isValidCep (Cep req)) then
           respondWithError StatusUnprocessableEntity "invalid zipcode" ctx
         else
           resp <- callServiceB ctx (Cep req) ;;
           match resp with
           | Err err =>
               if errors_Is err ErrCepNotFound then
                 respondWithError StatusNotFound "can not find zipcode" ctx
               else if errors_Is err ErrInvalidCep then
                 respondWithError StatusUnprocessableEntity "invalid zipcode" ctx
               else
                 respondWithError StatusInternalServerError "internal server error" ctx
           | Ok resp =>
               emit (HeaderSet "Content-Type" "application/json") ;;
               emit (WriteHeader StatusOK) ;;
               emit (Write resp)
           end
     end).

End WithWorld.

End ServiceA.

Definition background : context := {| ctx_span := None |}.

(** ** What a client observes of a handler run *)

Inductive body_part : Type :=
| Raw (b : bytes)          (* w.Write(b) *)
| Json (v : payload).      (* json.NewEncoder(w).Encode(v) *)

Fixpoint written_status (evs : list event) : list Z :=
  match evs with
  | [] => []
  | WriteHeader c :: evs' => c :: written_status evs'
  | _ :: evs' => written_status evs'
  end.

Fixpoint written_body (evs : list event) : list body_part :=
  match evs with
  | [] => []
  | Write b :: evs' => Raw b :: written_body evs'
  | Encode v :: evs' => Json v :: written_body evs'
  | _ :: evs' => written_body evs'
  end.

(** The bytes on the wire: an [Encode] that fails writes nothing. *)
Definition render (w : World) (p : body_part) : bytes :=
  match p with
  | Raw b => b
  | Json v => match json_Encode w v with Some b => b | None => "" end
  end.

Definition wire_body (w : World) (evs : list event) : bytes :=
  String.concat "" (map (render w) (written_body evs)).

(** Names of the spans started, in order: the steps that ran. *)
Fixpoint started (evs : list event) : list string :=
  match evs with
  | [] => []
  | SpanStart _ name _ :: evs' => name :: started evs'
  | _ :: evs' => started evs'
  end.

(** Outbound requests made, in order. *)
Fixpoint outbound (evs : list event) : list (string * string) :=
  match evs with
  | [] => []
  | ClientDo _ method url _ :: evs' => (method, url) :: outbound evs'
  | _ :: evs' => outbound evs'
  end.

Fixpoint count_start (id : span) (evs : list event) : nat :=
  match evs with
  | [] => 0
  | SpanStart id' _ _ :: evs' => (if Nat.eqb id id' then 1 else 0) + count_start id evs'
  | _ :: evs' => count_start id evs'
  end.

Fixpoint count_end (id : span) (evs : list event) : nat :=
  match evs with
  | [] => 0
  | SpanEnd id' :: evs' => (if Nat.eqb id id' then 1 else 0) + count_end id evs'
  | _ :: evs' => count_end id evs'
  end.

(** Span discipline of a trace: walking the events with the list of open
    spans, a span is started only if it was never started before, ended
    only while open, and none is left open at the end. *)
Fixpoint spans_balanced (seen open : list span) (evs : list event) : bool :=
  match evs with
  | [] => match open with [] => true | _ :: _ => false end
  | SpanStart id _ _ :: evs' =>
      negb (existsb (Nat.eqb id) seen) && spans_balanced (id :: seen) (id :: open) evs'
  | SpanEnd id :: evs' =>
      existsb (Nat.eqb id) open
      && spans_balanced seen (filter (fun o => negb (Nat.eqb id o)) open) evs'
  | SpanAddEvent id _ _ :: evs' =>
      existsb (Nat.eqb id) open && spans_balanced seen open evs'
  | _ :: evs' => spans_balanced seen open evs'
  end.

(** ** The two services put together

    The entry orchestrator's round trip to [serviceBURL] is answered by
    the downstream handler, run on the posted body: the status is the one
    passed to the first [WriteHeader] (200 when there is none) and the body
    is what the handler wrote. The request context of the downstream
    handler carries no span: its router installs no extracting
    middleware. *)

Definition serve (w : World) (reqBody : bytes) : do_result :=
  let evs := events_of (ServiceB.handleWeatherRequest w
                          {| req_Context := background; req_Body := Some reqBody |}) 0 in
  Response (hd StatusOK (written_status evs)) (Some (wire_body w evs)).

Definition with_downstream (w : World) : World :=
  {| serviceBURL := serviceBURL w;
     weatherApiKey := weatherApiKey w;
     http_NewRequest := http_NewRequest w;
     client_Do := fun method url body =>
       if String.eqb method "POST" && String.eqb url (serviceBURL w)
       then serve w body
       else client_Do w method url body;
     read_before_failure := read_before_failure w;
     json_Marshal_cep := json_Marshal_cep w;
     json_Decode_CepRequest := json_Decode_CepRequest w;
     json_Unmarshal_ViaCep := json_Unmarshal_ViaCep w;
     json_Decode_Weather := json_Decode_Weather w;
     json_Encode := json_Encode w;
     url_QueryEscape := url_QueryEscape w;
     fused_multiply_add := fused_multiply_add w |}.

(** ** The specification's vocabulary *)

Inductive ErrorKind : Type := NotFound | UnprocessableInput | Internal.

Definition status_of_kind (k : ErrorKind) : Z :=
  match k with
  | NotFound => 404
  | UnprocessableInput => 422
  | Internal => 500
  end%Z.

(** The kind an error value has for the handler that receives it, by the
    handler's own tests, in their order. *)
Definition kind_in_A (err : error) : ErrorKind :=
  if errors_Is err ServiceA.ErrCepNotFound then NotFound
  else if errors_Is err ServiceA.ErrInvalidCep then UnprocessableInput
  else Internal.

Definition kind_in_B (err : error) : ErrorKind :=
  if errors_Is err ServiceB.ErrCepNotFound then NotFound else Internal.

Definition error_body (message : string) : list body_part :=
  [Json (PError {| Message := message |})].

(** ** Auxiliary definitions for the proofs *)

(** Eight (or [n]) digits and then the continuation, written out. *)
Fixpoint eat_digits (n : nat) (at_start : bool) (s : string)
         (k : bool -> string -> bool) : bool :=
  match n with
  | O => k at_start s
  | S n' =>
      match s with
      | EmptyString => false
      | String c s' => Regexp.perl_digit c && eat_digits n' false s' k
      end
  end.

(** The value each step returns; it depends on the world only, not on the
    context or the span counter (lemmas [getCepInfo_value] and the like). *)
Definition resolve (w : World) (cep : string) : result string :=
  value_of (ServiceB.getCepInfo w background cep) 0.

Definition fetch (w : World) (city : string) : result WeatherResponse :=
  value_of (ServiceB.getWeatherInfo w background city) 0.

Definition forward (w : World) (cep : string) : result bytes :=
  value_of (ServiceA.callServiceB w background cep) 0.

(** Precedence of the error event: walking the events with the stack of
    open spans (innermost first) and the status code of the last
    "error_response" event, an event is added only to the innermost open
    span, and a status other than 200 is written only after an
    "error_response" event that carries that very code and before
    anything else was written. *)
Fixpoint errors_announced (open : list span) (announced : option Z)
         (written : bool) (evs : list event) : bool :=
  match evs with
  | [] => true
  | SpanStart id _ _ :: evs' => errors_announced (id :: open) announced written evs'
  | SpanEnd id :: evs' =>
      errors_announced (filter (fun o => negb (Nat.eqb id o)) open) announced written evs'
  | SpanAddEvent id name code :: evs' =>
      match open with
      | top :: _ =>
          Nat.eqb id top && String.eqb name "error_response" && negb written
          && errors_announced open (Some code) written evs'
      | [] => false
      end
  | WriteHeader code :: evs' =>
      ((code =? StatusOK)%Z
       || match announced with Some c => (c =? code)%Z | None => false end)
      && negb written
      && errors_announced open announced true evs'
  | _ :: evs' => errors_announced open announced written evs'
  end.

(** ** A concrete world

    The default downstream URL of [servicea], a stand-in API key, the
    codecs on the JSON texts the examples use, and providers and a
    downstream service answering as given. *)

Module Demo.

Definition dq : string := String (ascii_of_nat 34) "".
Definition quoted (s : string) : string := dq ++ s ++ dq.
Definition nl : string := String (ascii_of_nat 10) "".

(** [json.Marshal(map[string]string{"cep": cep})] for a [cep] that needs
    no escaping. *)
Definition marshal_cep (cep : string) : option bytes :=
  Some ("{" ++ quoted "cep" ++ ":" ++ quoted cep ++ "}").

(** Decoding of an object with the one key [cep] and a string without
    escapes; anything else is refused. *)
Definition decode_cep (b : bytes) : option CepRequest :=
  let pre := "{" ++ quoted "cep" ++ ":" ++ dq in
  let post := dq ++ "}" in
  let n := String.length b in
  if (String.length pre + String.length post <=? n)%nat
     && prefix pre b
     && String.eqb (substring (n - String.length post) (String.length post) b) post
  then Some {| Cep := substring (String.length pre)
                        (n - String.length pre - String.length post) b |}
  else None.

Definition viacep_record (localidade : string) (erro : bool) : ViaCepResponse :=
  {| vc_Cep := if erro then "" else "01001-000";
     Logradouro := ""; Complemento := ""; Bairro := "";
     Localidade := localidade;
     Uf := if erro then "" else "SP";
     Ibge := ""; Gia := ""; Ddd := ""; Siafi := ""; Erro := erro |}.

Definition viacep_found : bytes :=
  "{" ++ quoted "cep" ++ ":" ++ quoted "01001-000" ++ ","
      ++ quoted "localidade" ++ ":" ++ quoted "Sao Paulo" ++ ","
      ++ quoted "uf" ++ ":" ++ quoted "SP" ++ "}".

Definition viacep_erro : bytes := "{" ++ quoted "erro" ++ ":true}".

Definition viacep_no_city : bytes :=
  "{" ++ quoted "cep" ++ ":" ++ quoted "01001-000" ++ ","
      ++ quoted "uf" ++ ":" ++ quoted "SP" ++ "}".

Definition unmarshal_viacep (b : bytes) : option ViaCepResponse :=
  if String.eqb b viacep_found then Some (viacep_record "Sao Paulo" false)
  else if String.eqb b viacep_erro then Some (viacep_record "" true)
  else if String.eqb b viacep_no_city then Some (viacep_record "" false)
  else None.

Definition weather_285 : bytes :=
  "{" ++ quoted "location" ++ ":{" ++ quoted "name" ++ ":" ++ quoted "Sao Paulo" ++ "},"
      ++ quoted "current" ++ ":{" ++ quoted "temp_c" ++ ":28.5}}".

Definition decode_weather (b : bytes) : option WeatherResponse :=
  if String.eqb b weather_285
  then Some {| Location := {| Name := "Sao Paulo" |};
               Current := {| wc_TempC := 28.5%float |} |}
  else None.

(** Shortest decimal text of the numbers of the example. *)
Definition float_text (f : float) : option string :=
  if PrimFloat.eqb f 28.5 then Some "28.5"
  else if PrimFloat.eqb f 83.3 then Some "83.3"
  else if PrimFloat.eqb f 0x1.4d33333333334p+6 then Some "83.30000000000001"
  else if PrimFloat.eqb f 301.5 then Some "301.5"
  else None.

Definition encode (v : payload) : option bytes :=
  match v with
  | PError e => Some ("{" ++ quoted "message" ++ ":" ++ quoted (Message e) ++ "}" ++ nl)
  | PResult r =>
      match float_text (TempC r), float_text (TempF r), float_text (TempK r) with
      | Some c, Some f, Some k =>
          Some ("{" ++ quoted "city" ++ ":" ++ quoted (City r) ++ ","
                    ++ quoted "temp_C" ++ ":" ++ c ++ ","
                    ++ quoted "temp_F" ++ ":" ++ f ++ ","
                    ++ quoted "temp_K" ++ ":" ++ k ++ "}" ++ nl)
      | _, _, _ => None
      end
  end.

(** [url.QueryEscape] on letters, digits and spaces. *)
Fixpoint query_escape (s : string) : string :=
  match s with
  | EmptyString => EmptyString
  | String c s' =>
      String (if Ascii.eqb c " "%char then "+"%char else c) (query_escape s')
  end.

Definition world (viacep weather downstream : do_result) : World :=
  {| serviceBURL := "http://serviceb:8081/weather";
     weatherApiKey := "KEY";
     http_NewRequest := fun _ _ => true;
     client_Do := fun method url body =>
       if prefix "https://viacep.com.br/ws/" url then viacep
       else if prefix "https://api.weatherapi.com/v1/" url then weather
       else if String.eqb url "http://serviceb:8081/weather" then downstream
       else DoError;
     read_before_failure := fun _ _ _ => "";
     json_Marshal_cep := marshal_cep;
     json_Decode_CepRequest := decode_cep;
     json_Unmarshal_ViaCep := unmarshal_viacep;
     json_Decode_Weather := decode_weather;
     json_Encode := encode;
     url_QueryEscape := query_escape;
     fused_multiply_add := false |}.

Definition post (body : bytes) : Request :=
  {| req_Context := background; req_Body := Some body |}.

Definition cep_body (cep : string) : bytes :=
  "{" ++ quoted "cep" ++ ":" ++ quoted cep ++ "}".

End Demo.

Definition request_ok : Request := Demo.post (Demo.cep_body "01001000").

(** The same world, compiled with the multiplication and the addition
    fused. *)
Definition fusing (w : World) : World :=
  {| serviceBURL := serviceBURL w;
     weatherApiKey := weatherApiKey w;
     http_NewRequest := http_NewRequest w;
     client_Do := client_Do w;
     read_before_failure := read_before_failure w;
     json_Marshal_cep := json_Marshal_cep w;
     json_Decode_CepRequest := json_Decode_CepRequest w;
     json_Unmarshal_ViaCep := json_Unmarshal_ViaCep w;
     json_Decode_Weather := json_Decode_Weather w;
     json_Encode := json_Encode w;
     url_QueryEscape := url_QueryEscape w;
     fused_multiply_add := true |}.

(** What [respondWithError] does when the context carries span [sp]. *)
Definition respond_events (sp : span) (statusCode : Z) (message : string) : list event :=
  [SpanAddEvent sp "error_response" statusCode;
   HeaderSet "Content-Type" "application/json";
   WriteHeader statusCode;
   Encode (PError {| Message := message |})].

(** The entry orchestrator in front of a downstream service that answers
    404, 422 or 503 with an empty body; the providers are unreachable. *)
Definition world_404 : World :=
  Demo.world DoError DoError (Response 404 (Some "")).

Definition world_422 : World :=
  Demo.world DoError DoError (Response 422 (Some "")).

Definition world_503 : World :=
  Demo.world DoError DoError (Response 503 (Some "")).

(** Both providers answer 200 for the code 01001000. *)
Definition world_ok : World :=
  Demo.world (Response 200 (Some Demo.viacep_found))
             (Response 200 (Some Demo.weather_285))
             (Response 200 (Some "{}")).


(** ** Location resolution, in the specification's words

    The provider's answer is accepted by its status; an accepted answer
    whose body is read and decodes to a record fails with NotFound when
    the record's [erro] flag is set and otherwise gives the record's
    locality; everything else (the request cannot be made or sent, the
    status is not accepted, the body cannot be read or decoded) fails with
    Internal. *)

Inductive resolution : Type :=
| Resolved (city : string)
| Failed (k : ErrorKind).

Definition resolution_of (r : result string) : resolution :=
  match r with
  | Ok city => Resolved city
  | Err err => Failed (kind_in_B err)
  end.

Definition is_2xx (code : Z) : bool := (200 <=? code)%Z && (code <? 300)%Z.

Definition is_200 (code : Z) : bool := (code =? 200)%Z.

Definition resolveLocation_spec (accepted : Z -> bool) (w : World) (cep : string)
  : resolution :=
  if negb (http_NewRequest w "GET" (ServiceB.viacep_url cep)) then Failed Internal
  else
    match client_Do w "GET" (ServiceB.viacep_url cep) "" with
    | DoError => Failed Internal
    | Response code body =>
        if negb (accepted code) then Failed Internal
        else
          match body with
          | None => Failed Internal
          | Some b =>
              match json_Unmarshal_ViaCep w b with
              | None => Failed Internal
              | Some record =>
                  if Erro record then Failed NotFound
                  else Resolved (Localidade record)
              end
          end
    end.

(** The postal-code provider answers 201 with a record whose [erro] flag
    is set. *)
Definition world_201 : World :=
  Demo.world (Response 201 (Some Demo.viacep_erro)) DoError DoError.

(** The postal-code provider answers 200 with a record that has no
    locality; the weather provider answers as usual. *)
Definition world_no_city : World :=
  Demo.world (Response 200 (Some Demo.viacep_no_city))
             (Response 200 (Some Demo.weather_285))
             DoError.

(** ** Span discipline of one operation

    The operation's first effect starts span [sp] under [parent], its last
    effect ends it, it is ended once, every span is ended as often as it is
    started and at most once, and the trace is balanced. *)
Definition span_ended_once (sp : span) (name : string) (parent : option span)
           (evs : list event) : Prop :=
  hd_error evs = Some (SpanStart sp name parent)
  /\ last evs (SpanStart sp name parent) = SpanEnd sp
  /\ count_end sp evs = 1
  /\ (forall id, count_end id evs = count_start id evs /\ count_start id evs <= 1)
  /\ spans_balanced [] [] evs = true.

(** The postal-code provider answers 200 with a record whose [erro] flag
    is set. *)
Definition world_erro : World :=
  Demo.world (Response 200 (Some Demo.viacep_erro)) DoError DoError.

(** The postal-code provider resolves the code; the weather provider is
    unreachable. *)
Definition world_no_weather : World :=
  Demo.world (Response 200 (Some Demo.viacep_found)) DoError DoError.

(** ** Further observations of a run *)

(** The calls a handler makes for its answer, in order:
    [w.Header().Set], [w.WriteHeader], and for the body either [w.Write]
    ([Raw]) or [json.NewEncoder(w).Encode] ([Json]). The last is the call
    on the encoder: what reaches the writer is in [writer_receives]. *)
Inductive writer_call : Type :=
| SetsHeader (key value : string)
| WritesStatus (code : Z)
| BodyCall (p : body_part).

Fixpoint writer_calls (evs : list event) : list writer_call :=
  match evs with
  | [] => []
  | HeaderSet k v :: evs' => SetsHeader k v :: writer_calls evs'
  | WriteHeader c :: evs' => WritesStatus c :: writer_calls evs'
  | Write b :: evs' => BodyCall (Raw b) :: writer_calls evs'
  | Encode v :: evs' => BodyCall (Json v) :: writer_calls evs'
  | _ :: evs' => writer_calls evs'
  end.




(** The formats of the lines logged, in order. *)
Fixpoint logged (evs : list event) : list string :=
  match evs with
  | [] => []
  | LogPrintf format :: evs' => format :: logged evs'
  | _ :: evs' => logged evs'
  end.

(** Response bodies closed. *)
Fixpoint count_close (evs : list event) : nat :=
  match evs with
  | [] => 0
  | BodyClose :: evs' => S (count_close evs')
  | _ :: evs' => count_close evs'
  end.

(** The spans the code starts with [tracer.Start], each with its name and
    its parent, in order. *)
Fixpoint span_tree (evs : list event) : list (span * string * option span) :=
  match evs with
  | [] => []
  | SpanStart id name parent :: evs' => (id, name, parent) :: span_tree evs'
  | _ :: evs' => span_tree evs'
  end.

(** The outbound requests, each with the span its context carries, its
    method, URL and body. *)
Fixpoint requests (evs : list event) : list (option span * string * string * bytes) :=
  match evs with
  | [] => []
  | ClientDo ctx method url body :: evs' =>
      (ctx_span ctx, method, url, body) :: requests evs'
  | _ :: evs' => requests evs'
  end.

(** Has the round trip given a response? *)
Definition answered (d : do_result) : bool :=
  match d with
  | DoError => false
  | Response _ _ => true
  end.

(** The body of a response received is closed once, right before the
    operation's span ends; without a response nothing is closed. *)
Definition closes_body_once (sp : span) (evs : list event) (received : bool) : Prop :=
  if received
  then count_close evs = 1 /\ firstn 2 (rev evs) = [SpanEnd sp; BodyClose]
  else count_close evs = 0.

(** The three error answers of the services. *)
Definition fixed_message (code : Z) : string :=
  match code with
  | 404 => "can not find zipcode"
  | 422 => "invalid zipcode"
  | _ => "internal server error"
  end%Z.
(** The downstream service cannot be reached. *)
Definition world_down : World := Demo.world DoError DoError DoError.

(** The downstream service answers 404 and the connection breaks while the
    body is read. *)
Definition world_cut : World := Demo.world DoError DoError (Response 404 None).

(** The header both handlers set before any status. *)
Definition json_header : writer_call := SetsHeader "Content-Type" "application/json".


(** ** Process start-up: [getEnv], [initTracer] and [main]

    What the process does before it serves requests. The host (the
    environment variables, the collector, the socket) is a record of
    answers; a call that may block for ever says so in its answer. *)

Inductive call_result : Type :=
| Succeeds
| Fails
| NeverReturns.

Record Host : Type := {
  os_LookupEnv : string -> option string;
  (* grpc.DialContext with grpc.WithBlock and no deadline *)
  grpc_DialContext : string -> call_result;
  otlptracegrpc_New : bool;
  resource_New : bool;
  tp_Shutdown : bool;
  (* http.ListenAndServe: does it return (it then returns an error) *)
  http_ListenAndServe : string -> bool
}.

Record TracerProvider : Type := { tp_serviceName : string }.

Inductive startup_event : Type :=
| GlobalAssigned (name value : string)
| GrpcDial (target : string)
| OtlpExporterNew
| ResourceNew (serviceName : string)
| NewTracerProvider
| SetTracerProvider
| SetTextMapPropagator
| TracerAssigned (name : string)
| RouterUse (middleware : string)
| RouterPost (pattern : string)
| FmtPrintf (line : string)
| ListenAndServe (addr : string)
| TracerShutdown (timeout_seconds : Z)
| LogFatal (format : string) (err : error).

(** How a piece of the start-up ends: it returns, the process exits
    ([os.Exit], through [log.Fatal]), or it blocks for ever in a call. *)
Inductive ending (A : Type) : Type :=
| Returned (a : A)
| Exited (code : Z)
| Blocked (in_call : startup_event).
Arguments Returned {A} a.
Arguments Exited {A} code.
Arguments Blocked {A} in_call.

Definition Proc (A : Type) : Type := list startup_event * ending A.

Definition retP {A : Type} (a : A) : Proc A := ([], Returned a).

Definition bindP {A B : Type} (m : Proc A) (f : A -> Proc B) : Proc B :=
  match m with
  | (e1, Returned a) => let '(e2, x) := f a in ((e1 ++ e2)%list, x)
  | (e1, Exited code) => (e1, Exited code)
  | (e1, Blocked c) => (e1, Blocked c)
  end.

Definition emitP (e : startup_event) : Proc unit := ([e], Returned tt).

(** [defer f()] in [main]: the deferred call runs when the body returns;
    it does not run when the process exits or never returns. *)
Definition deferP {A : Type} (deferred : Proc unit) (body : Proc A) : Proc A :=
  match body with
  | (e1, Returned a) =>
      match deferred with
      | (e2, Returned _) => ((e1 ++ e2)%list, Returned a)
      | (e2, Exited code) => ((e1 ++ e2)%list, Exited code)
      | (e2, Blocked c) => ((e1 ++ e2)%list, Blocked c)
      end
  | (e1, Exited code) => (e1, Exited code)
  | (e1, Blocked c) => (e1, Blocked c)
  end.

(** [log.Fatalf(format, err)] and [log.Fatal(err)]: print, then
    [os.Exit(1)]. *)
Definition log_Fatalf {A : Type} (format : string) (err : error) : Proc A :=
  ([LogFatal format err], Exited 1).

Definition newline : string := String (ascii_of_nat 10) "".

Declare Scope proc_scope.
Delimit Scope proc_scope with proc.
Notation "x <- m ;; k" := (bindP m (fun x => k))
  (at level 61, m at next level, right associativity) : proc_scope.
Notation "m ;; k" := (bindP m (fun _ => k))
  (at level 61, right associativity) : proc_scope.

Section Startup.
Variable h : Host.
#[local] Open Scope proc_scope.

(** Both files: [getEnv]. *)
Definition getEnv (key fallback : string) : string :=
  match os_LookupEnv h key with
  | Some value => value
  | None => fallback
  end.

Definition grpc_Dial (target : string) : Proc bool :=
  match grpc_DialContext h target with
  | Succeeds => ([GrpcDial target], Returned true)
  | Fails => ([GrpcDial target], Returned false)
  | NeverReturns => ([GrpcDial target], Blocked (GrpcDial target))
  end.

Definition listenAndServe (addr : string) : Proc unit :=
  if http_ListenAndServe h addr
  then ([ListenAndServe addr], Returned tt)
  else ([ListenAndServe addr], Blocked (ListenAndServe addr)).

(** The deferred function of [main]. *)
Definition shutdown (tp : TracerProvider) : Proc unit :=
  emitP (TracerShutdown 5) ;;
  if negb (tp_Shutdown h)
  then log_Fatalf "Error shutting down tracer provider: %v" (Foreign "sdktrace")
  else retP tt.

(** servicea/main.go and serviceb/main.go, [initTracer]: the two differ in
    the service name only. *)
Definition initTracer_named (serviceName collectorURL : string)
  : Proc (result TracerProvider) :=
  connected <- grpc_Dial collectorURL ;;
  if negb connected then
    retP (Err (Wrap "failed to create gRPC connection to collector" (Foreign "grpc")))
  else
    emitP OtlpExporterNew ;;
    if negb (otlptracegrpc_New h) then
      retP (Err (Wrap "failed to create trace exporter" (Foreign "otlptracegrpc")))
    else
      emitP (ResourceNew serviceName) ;;
      if negb (resource_New h) then
        retP (Err (Wrap "failed to create resource" (Foreign "resource")))
      else
        emitP NewTracerProvider ;;
        emitP SetTracerProvider ;;
        emitP SetTextMapPropagator ;;
        emitP (TracerAssigned serviceName) ;;
        retP (Ok {| tp_serviceName := serviceName |}).

End Startup.

Module ServiceA_main.
Section WithHost.
Variable h : Host.
#[local] Open Scope proc_scope.

Definition initTracer (collectorURL : string) : Proc (result TracerProvider) :=
  initTracer_named h "service-a" collectorURL.

Definition main : Proc unit :=
  emitP (GlobalAssigned "serviceBURL"
           (getEnv h "SERVICE_B_URL" "http://serviceb:8081/weather")) ;;
  let collectorURL := getEnv h "OTEL_COLLECTOR_URL" "otel-collector:4317" in
  tp <- initTracer collectorURL ;;
  match tp with
  | Err err => log_Fatalf "Failed to initialize tracer: %v" err
  | Ok tp =>
      deferP (shutdown h tp)
        (emitP (RouterUse "Logger") ;;
         emitP (RouterUse "Recoverer") ;;
         emitP (RouterPost "/cep") ;;
         let port := getEnv h "PORT" "8080" in
         emitP (FmtPrintf ("Service A listening on port " ++ port ++ "..." ++ newline)) ;;
         listenAndServe h (":" ++ port) ;;
         log_Fatalf "%v" (Foreign "net/http"))
  end.

End WithHost.
End ServiceA_main.

Module ServiceB_main.
Section WithHost.
Variable h : Host.
(** The fallback of WEATHER_API_KEY, a key literal in the source. *)
Variable default_weatherApiKey : string.
#[local] Open Scope proc_scope.

Definition initTracer (collectorURL : string) : Proc (result TracerProvider) :=
  initTracer_named h "service-b" collectorURL.

Definition main : Proc unit :=
  emitP (GlobalAssigned "weatherApiKey"
           (getEnv h "WEATHER_API_KEY" default_weatherApiKey)) ;;
  let collectorURL := getEnv h "OTEL_COLLECTOR_URL" "otel-collector:4317" in
  tp <- initTracer collectorURL ;;
  match tp with
  | Err err => log_Fatalf "Failed to initialize tracer: %v" err
  | Ok tp =>
      deferP (shutdown h tp)
        (emitP (RouterUse "Logger") ;;
         emitP (RouterUse "Recoverer") ;;
         emitP (RouterPost "/weather") ;;
         let port := getEnv h "PORT" "8081" in
         emitP (FmtPrintf ("Service B listening on port " ++ port ++ "..." ++ newline)) ;;
         listenAndServe h (":" ++ port) ;;
         log_Fatalf "%v" (Foreign "net/http"))
  end.

End WithHost.
End ServiceB_main.

(** Observations of a start-up. *)
Fixpoint shutdowns (evs : list startup_event) : nat :=
  match evs with
  | [] => 0
  | TracerShutdown _ :: evs' => S (shutdowns evs')
  | _ :: evs' => shutdowns evs'
  end.

Fixpoint listens (evs : list startup_event) : list string :=
  match evs with
  | [] => []
  | ListenAndServe addr :: evs' => addr :: listens evs'
  | _ :: evs' => listens evs'
  end.

Fixpoint routes (evs : list startup_event) : list string :=
  match evs with
  | [] => []
  | RouterPost pattern :: evs' => pattern :: routes evs'
  | _ :: evs' => routes evs'
  end.

Fixpoint tracers (evs : list startup_event) : list string :=
  match evs with
  | [] => []
  | TracerAssigned name :: evs' => name :: tracers evs'
  | _ :: evs' => tracers evs'
  end.

Fixpoint attempts (evs : list startup_event) : list startup_event :=
  match evs with
  | [] => []
  | GrpcDial t :: evs' => GrpcDial t :: attempts evs'
  | OtlpExporterNew :: evs' => OtlpExporterNew :: attempts evs'
  | ResourceNew s :: evs' => ResourceNew s :: attempts evs'
  | _ :: evs' => attempts evs'
  end.

Definition tracer_ready (h : Host) (collectorURL : string) : bool :=
  match grpc_DialContext h collectorURL with
  | Succeeds => otlptracegrpc_New h && resource_New h
  | _ => false
  end.

(** A host on which everything works and the server keeps serving. *)
Definition host_fine (env : string -> option string) : Host :=
  {| os_LookupEnv := env;
     grpc_DialContext := fun _ => Succeeds;
     otlptracegrpc_New := true;
     resource_New := true;
     tp_Shutdown := true;
     http_ListenAndServe := fun _ => false |}.

(** What [initTracer] guarantees: the tracer is assigned exactly when the
    three steps succeed and only then is a provider returned; an error
    names the first step that failed and no later step was attempted; the
    only call it can block in is the dial; it never exits the process. *)
Definition initTracer_contract (serviceName collectorURL : string) (h : Host)
           (run : Proc (result TracerProvider)) : Prop :=
  let '(evs, e) := run in
  tracers evs = (if tracer_ready h collectorURL then [serviceName] else [])
  /\ ((exists tp, e = Returned (Ok tp)) <-> tracer_ready h collectorURL = true)
  /\ (forall err,
         e = Returned (Err err) ->
         (err = Wrap "failed to create gRPC connection to collector" (Foreign "grpc")
          /\ attempts evs = [GrpcDial collectorURL])
         \/ (err = Wrap "failed to create trace exporter" (Foreign "otlptracegrpc")
             /\ attempts evs = [GrpcDial collectorURL; OtlpExporterNew])
         \/ (err = Wrap "failed to create resource" (Foreign "resource")
             /\ attempts evs = [GrpcDial collectorURL; OtlpExporterNew;
                                ResourceNew serviceName]))
  /\ (forall c, e = Blocked c ->
                 c = GrpcDial collectorURL /\ evs = [GrpcDial collectorURL])
  /\ (forall code, e <> Exited code).

(** What [main] guarantees: the deferred shutdown of the tracer provider
    never runs; [main] never returns; an exit has status 1; the route is
    registered and the socket opened exactly when the tracer is ready, on
    the port given by PORT; the process ends up serving exactly when the
    tracer is ready and [ListenAndServe] does not return. *)
Definition main_contract (h : Host) (route default_port : string) (run : Proc unit) : Prop :=
  let '(evs, e) := run in
  let ready := tracer_ready h (getEnv h "OTEL_COLLECTOR_URL" "otel-collector:4317") in
  let addr := ":" ++ getEnv h "PORT" default_port in
  shutdowns evs = 0
  /\ (forall u, e <> Returned u)
  /\ (forall code, e = Exited code -> code = 1%Z)
  /\ routes evs = (if ready then [route] else [])
  /\ listens evs = (if ready then [addr] else [])
  /\ (e = Blocked (ListenAndServe addr)
      <-> ready = true /\ http_ListenAndServe h addr = false).

(** ** The status mapping of the entry orchestrator, for every response

    In the words of the specification: whatever response the downstream
    service gives to the forwarded code, status 404 is answered 404,
    status 422 is answered 422, and any other status but 200 is answered
    500 with the message "internal server error". *)
Definition every_response_is_mapped_by_status : Prop :=
  forall (w : World) (r : Request) (n : span) (req : CepRequest)
         (reqBody : bytes) (status : Z) (Body : option bytes),
    decode_stream (json_Decode_CepRequest w) (req_Body r) = Some req ->
    ServiceA.isValidCep (Cep req) = true ->
    json_Marshal_cep w (Cep req) = Some reqBody ->
    http_NewRequest w "POST" (serviceBURL w) = true ->
    client_Do w "POST" (serviceBURL w) reqBody = Response status Body ->
    let evs := events_of (ServiceA.handleCepRequest w r) n in
    (status = 404%Z -> written_status evs = [status_of_kind NotFound])
    /\ (status = 422%Z -> written_status evs = [status_of_kind UnprocessableInput])
    /\ (status <> 200%Z -> status <> 404%Z -> status <> 422%Z ->
        written_status evs = [status_of_kind Internal]
        /\ written_body evs = error_body "internal server error").

(** The value of a finite double times [2^k], an integer when [k] is large
    enough. *)
Definition scaled (k : Z) (f : float) : Z :=
  match Prim2SF f with
  | S754_finite s m e => (if s then Z.neg m else Z.pos m) * 2 ^ (e + k)
  | _ => 0
  end%Z.

(** * Properties *)

(** ** The validator *)

Section RegexpFacts.
Import Regexp.

Lemma step_repeat_digit (n : nat) :
  forall at_start s k,
    step (Repeat n PerlDigit) at_start s k = eat_digits n at_start s k.
Proof.
  induction n as [|n IH]; intros at_start s k; [reflexivity|].
  cbn [eat_digits]. destruct s as [|c s]; [reflexivity|].
  rewrite <- IH. reflexivity.
Qed.

Lemma eat_digits_to_end (n : nat) :
  forall at_start s,
    eat_digits n at_start s
      (fun b s' => step EndText b s' (fun _ _ => true))
    = Nat.eqb (String.length s) n && forall_bytes perl_digit s.
Proof.
  induction n as [|n IH]; intros at_start s.
  - destruct s; reflexivity.
  - destruct s as [|c s]; [reflexivity|].
    cbn [eat_digits String.length forall_bytes Nat.eqb].
    rewrite IH. destruct (perl_digit c); cbn.
    + reflexivity.
    + now rewrite andb_false_r.
Qed.

Lemma cep_pattern_at (at_start : bool) (s : string) :
  step cep_pattern at_start s (fun _ _ => true)
  = at_start && (Nat.eqb (String.length s) 8 && forall_bytes perl_digit s).
Proof.
  unfold cep_pattern. cbn [step].
  destruct at_start; [|reflexivity].
  cbn [andb].
  change (step (Repeat 8 PerlDigit) true s
            (fun b s' => step EndText b s' (fun _ _ => true))
          = Nat.eqb (String.length s) 8 && forall_bytes perl_digit s).
  rewrite step_repeat_digit. apply eat_digits_to_end.
Qed.

Lemma cep_pattern_not_later (s : string) : search cep_pattern false s = false.
Proof.
  induction s as [|c s IH]; cbn [search]; rewrite cep_pattern_at; [reflexivity|].
  exact IH.
Qed.

Lemma MatchString_cep_pattern (s : string) :
  MatchString cep_pattern s
  = Nat.eqb (String.length s) 8 && forall_bytes perl_digit s.
Proof.
  unfold MatchString. destruct s as [|c s]; cbn [search].
  - reflexivity.
  - rewrite cep_pattern_at, cep_pattern_not_later. cbn [andb]. apply orb_false_r.
Qed.

Lemma perl_digit_is_ascii_digit (c : ascii) : perl_digit c = is_ascii_digit c.
Proof.
  destruct c as [[] [] [] [] [] [] [] []]; reflexivity.
Qed.

Lemma forall_bytes_ext (p q : ascii -> bool) (s : string) :
  (forall c, p c = q c) -> forall_bytes p s = forall_bytes q s.
Proof.
  intros E. induction s as [|c s IH]; cbn; [reflexivity|]. now rewrite E, IH.
Qed.

End RegexpFacts.

Lemma isValidCep_A_bool (s : string) :
  ServiceA.isValidCep s
  = Nat.eqb (String.length s) 8 && forall_bytes is_ascii_digit s.
Proof.
  unfold ServiceA.isValidCep. rewrite MatchString_cep_pattern.
  f_equal. apply forall_bytes_ext, perl_digit_is_ascii_digit.
Qed.

Lemma isValidCep_B_bool (s : string) :
  ServiceB.isValidCep s
  = Nat.eqb (String.length s) 8 && forall_bytes is_ascii_digit s.
Proof.
  unfold ServiceB.isValidCep. rewrite MatchString_cep_pattern.
  f_equal. apply forall_bytes_ext, perl_digit_is_ascii_digit.
Qed.

(** C5. For every string [s], [isValidCep s] (in either service) is true
    if and only if [s] has length exactly 8 and every character of [s] is
    an ASCII digit. The validator is a total function to [bool]: it has
    no error case and performs no effect. *)
Theorem C5_isValidCep_iff_eight_ascii_digits :
  forall s : string,
    (ServiceA.isValidCep s = true
     <-> String.length s = 8 /\ forall_bytes is_ascii_digit s = true)
    /\ (ServiceB.isValidCep s = true
        <-> String.length s = 8 /\ forall_bytes is_ascii_digit s = true).
Proof.
  intros s. rewrite isValidCep_A_bool, isValidCep_B_bool.
  rewrite andb_true_iff, Nat.eqb_eq. split; reflexivity.
Qed.

Example isValidCep_examples :
  ServiceA.isValidCep "01001000" = true
  /\ ServiceA.isValidCep "123" = false
  /\ ServiceA.isValidCep "abcdefgh" = false
  /\ ServiceA.isValidCep "" = false
  /\ ServiceA.isValidCep "010010000" = false
  /\ ServiceA.isValidCep (String "010"%char "01001000") = false.
Proof. repeat split; reflexivity. Qed.

(** ** Running the handlers *)

Arguments ServiceB.viacep_url : simpl never.
Arguments ServiceB.weather_url : simpl never.
Arguments format_int : simpl never.
Arguments String.append : simpl never.

#[local] Arguments Nat.eqb : simpl never.

(** Decide the comparisons of span identifiers [n], [S n], ... *)
Ltac ids :=
  repeat match goal with
         | |- context [Nat.eqb ?a ?b] =>
             first [ replace (Nat.eqb a b) with true
                       by (symmetry; apply Nat.eqb_eq; lia)
                   | replace (Nat.eqb a b) with false
                       by (symmetry; apply Nat.eqb_neq; lia) ]
         end.

(** Unfold a run down to the calls on the world. *)
Ltac unfold_run :=
  unfold events_of, value_of,
    ServiceA.handleCepRequest, ServiceA.callServiceB, ServiceA.respondWithError,
    ServiceB.handleWeatherRequest, ServiceB.getCepInfo, ServiceB.getWeatherInfo,
    ServiceB.respondWithError, SpanFromContext_AddEvent,
    defer, span_End, tracer_Start, emit, bind, ret, decode_stream in *.

(** Split on the next answer of the world that the run waits for. *)
Ltac split_world :=
  match goal with
  | |- context [req_Body ?r] => destruct (req_Body r) eqn:?
  | |- context [json_Decode_CepRequest ?w ?b] =>
      destruct (json_Decode_CepRequest w b) eqn:?
  | |- context [ServiceA.isValidCep ?c] => destruct (ServiceA.isValidCep c) eqn:?
  | |- context [ServiceB.isValidCep ?c] => destruct (ServiceB.isValidCep c) eqn:?
  | |- context [json_Marshal_cep ?w ?c] => destruct (json_Marshal_cep w c) eqn:?
  | |- context [http_NewRequest ?w ?m ?u] => destruct (http_NewRequest w m u) eqn:?
  | |- context [client_Do ?w ?m ?u ?b] => destruct (client_Do w m u b) eqn:?
  | |- context [Z.eqb ?a ?b] => destruct (Z.eqb a b) eqn:?
  | |- context [json_Unmarshal_ViaCep ?w ?b] =>
      destruct (json_Unmarshal_ViaCep w b) eqn:?
  | |- context [json_Decode_Weather ?w ?b] =>
      destruct (json_Decode_Weather w b) eqn:?
  | |- context [Erro ?c] => destruct (Erro c) eqn:?
  | |- context [match ?b with Some _ => _ | None => _ end] => is_var b; destruct b
  end.

(** Use the equations between answers that the splits leave behind. *)
Ltac tidy :=
  repeat match goal with
         | H : Some _ = Some _ |- _ => injection H as H; subst
         | H : Ok _ = Ok _ |- _ => injection H as H; subst
         | H : Err _ = Err _ |- _ => injection H as H; subst
         | H : Response _ _ = Response _ _ |- _ => injection H as H; subst
         | H : ?x = ?x |- _ => clear H
         | H : ?x = _, H' : ?x = _ |- _ => rewrite H in H'
         end;
  try discriminate.

Ltac split_run := repeat (cbn in *; tidy; split_world); cbn in *; tidy.

Lemma getCepInfo_value (w : World) (ctx : context) (cep : string) (n : span) :
  value_of (ServiceB.getCepInfo w ctx cep) n = resolve w cep.
Proof. unfold resolve. unfold_run. split_run; reflexivity. Qed.

Lemma getWeatherInfo_value (w : World) (ctx : context) (city : string) (n : span) :
  value_of (ServiceB.getWeatherInfo w ctx city) n = fetch w city.
Proof. unfold fetch. unfold_run. split_run; reflexivity. Qed.

Lemma callServiceB_value (w : World) (ctx : context) (cep : string) (n : span) :
  value_of (ServiceA.callServiceB w ctx cep) n = forward w cep.
Proof. unfold forward. unfold_run. split_run; reflexivity. Qed.

(** ** The downstream orchestrator as a state machine *)

(** C2. The downstream orchestrator handles every request as a state
    machine that stops at the first failure, in this order: a body that
    does not decode yields 422 and a code that does not validate yields 422
    (both with the message "invalid zipcode"); a NotFound from the location
    step yields 404 and any other error of that step 500; any error of the
    weather step yields 500 with the message "internal server error"; only
    when every step succeeds is the answer 200 with the converted report:
    the city, the Celsius reading, that reading times 1.8 plus 32 and that
    reading plus 273, in float64.
    No later step runs after a failure: the spans started name exactly the
    steps up to the failing one. *)
Theorem C2_downstream_state_machine (w : World) (r : Request) (n : span) :
  let evs := events_of (ServiceB.handleWeatherRequest w r) n in
  let decoded := decode_stream (json_Decode_CepRequest w) (req_Body r) in
  (decoded = None ->
   written_status evs = [422%Z]
   /\ written_body evs = error_body "invalid zipcode"
   /\ started evs = ["handle_weather_request"]
   /\ outbound evs = [])
  /\ (forall req,
        decoded = Some req -> ServiceB.isValidCep (Cep req) = false ->
        written_status evs = [422%Z]
        /\ written_body evs = error_body "invalid zipcode"
        /\ started evs = ["handle_weather_request"]
        /\ outbound evs = [])
  /\ (forall req err,
        decoded = Some req -> ServiceB.isValidCep (Cep req) = true ->
        resolve w (Cep req) = Err err ->
        errors_Is err ServiceB.ErrCepNotFound = true ->
        written_status evs = [404%Z]
        /\ written_body evs = error_body "can not find zipcode"
        /\ started evs = ["handle_weather_request"; "get_cep_info"])
  /\ (forall req err,
        decoded = Some req -> ServiceB.isValidCep (Cep req) = true ->
        resolve w (Cep req) = Err err ->
        errors_Is err ServiceB.ErrCepNotFound = false ->
        written_status evs = [500%Z]
        /\ written_body evs = error_body "internal server error"
        /\ started evs = ["handle_weather_request"; "get_cep_info"])
  /\ (forall req city err,
        decoded = Some req -> ServiceB.isValidCep (Cep req) = true ->
        resolve w (Cep req) = Ok city ->
        fetch w city = Err err ->
        written_status evs = [500%Z]
        /\ written_body evs = error_body "internal server error"
        /\ started evs = ["handle_weather_request"; "get_cep_info"; "get_weather_info"])
  /\ (forall req city weather,
        decoded = Some req -> ServiceB.isValidCep (Cep req) = true ->
        resolve w (Cep req) = Ok city ->
        fetch w city = Ok weather ->
        let tempC := wc_TempC (Current weather) in
        written_status evs = [200%Z]
        /\ written_body evs =
             [Json (PResult {| City := city; TempC := tempC;
                               TempF := if fused_multiply_add w
                                        then fma tempC 1.8 32
                                        else PrimFloat.add (PrimFloat.mul tempC 1.8) 32;
                               TempK := PrimFloat.add tempC 273 |})]
        /\ started evs = ["handle_weather_request"; "get_cep_info"; "get_weather_info"])
  /\ (In 200%Z (written_status evs) ->
      exists req city weather,
        decoded = Some req /\ ServiceB.isValidCep (Cep req) = true
        /\ resolve w (Cep req) = Ok city /\ fetch w city = Ok weather).
Proof.
  intros evs decoded. subst evs decoded.
  repeat match goal with |- _ /\ _ => split end; intros.
  all: try match goal with H : In _ _ |- _ => revert H end.
  all: unfold resolve, fetch in *; unfold_run.
  all: split_run.
  all: try (repeat split; reflexivity).
  all: try (intuition discriminate).
  intros _. do 3 eexists.
  split; [reflexivity|]. unfold_run. cbn.
  repeat match goal with H : _ = _ |- _ => rewrite H; cbn end.
  repeat split; reflexivity.
Qed.

Lemma C2_witness :
  written_status (events_of (ServiceB.handleWeatherRequest world_ok (Demo.post "{")) 0)
  = [422%Z]
  /\ written_status
       (events_of (ServiceB.handleWeatherRequest world_ok
                     (Demo.post (Demo.cep_body "123"))) 0) = [422%Z]
  /\ written_status (events_of (ServiceB.handleWeatherRequest world_erro request_ok) 0)
     = [404%Z]
  /\ written_status (events_of (ServiceB.handleWeatherRequest world_201 request_ok) 0)
     = [500%Z]
  /\ started (events_of (ServiceB.handleWeatherRequest world_no_weather request_ok) 0)
     = ["handle_weather_request"; "get_cep_info"; "get_weather_info"]
  /\ written_body (events_of (ServiceB.handleWeatherRequest world_ok request_ok) 0)
     = [Json (PResult {| City := "Sao Paulo"; TempC := 28.5;
                         TempF := 0x1.4d33333333334p+6;
                         TempK := 301.5 |})]
  /\ written_body
       (events_of (ServiceB.handleWeatherRequest (fusing world_ok) request_ok) 0)
     = [Json (PResult {| City := "Sao Paulo"; TempC := 28.5;
                         TempF := 83.3;
                         TempK := 301.5 |})].
Proof.
  split; [|split; [|split; [|split; [|split; [|split]]]]].
  - destruct (C2_downstream_state_machine world_ok (Demo.post "{") 0)
      as (H & _). apply (H eq_refl).
  - destruct (C2_downstream_state_machine world_ok
                (Demo.post (Demo.cep_body "123")) 0) as (_ & H & _).
    apply (H {| Cep := "123" |} eq_refl eq_refl).
  - destruct (C2_downstream_state_machine world_erro request_ok 0)
      as (_ & _ & H & _).
    apply (H {| Cep := "01001000" |} ServiceB.ErrCepNotFound eq_refl eq_refl eq_refl eq_refl).
  - destruct (C2_downstream_state_machine world_201 request_ok 0)
      as (_ & _ & _ & H & _).
    apply (H {| Cep := "01001000" |}
             (Errorf ("unexpected status code from ViaCEP: " ++ format_int 201))
             eq_refl eq_refl eq_refl eq_refl).
  - destruct (C2_downstream_state_machine world_no_weather request_ok 0)
      as (_ & _ & _ & _ & H & _).
    apply (H {| Cep := "01001000" |} "Sao Paulo"
             (Wrap "error calling Weather API" (Foreign "net/http"))
             eq_refl eq_refl eq_refl eq_refl).
  - destruct (C2_downstream_state_machine world_ok request_ok 0)
      as (_ & _ & _ & _ & _ & H & _).
    apply (H {| Cep := "01001000" |} "Sao Paulo"
             {| Location := {| Name := "Sao Paulo" |};
                Current := {| wc_TempC := 28.5%float |} |}
             eq_refl eq_refl eq_refl eq_refl).
  - destruct (C2_downstream_state_machine (fusing world_ok) request_ok 0)
      as (_ & _ & _ & _ & _ & H & _).
    apply (H {| Cep := "01001000" |} "Sao Paulo"
             {| Location := {| Name := "Sao Paulo" |};
                Current := {| wc_TempC := 28.5%float |} |}
             eq_refl eq_refl eq_refl eq_refl).
Defined.

(** ** The entry orchestrator on a downstream response *)

Arguments serve : simpl never.

(** The whole trace of the entry handler once the downstream service has
    answered and the body of the answer has been read. *)
Lemma handleCepRequest_on_response
      (w : World) (r : Request) (n : span) (req : CepRequest)
      (reqBody : bytes) (status : Z) (body : bytes) :
  decode_stream (json_Decode_CepRequest w) (req_Body r) = Some req ->
  ServiceA.isValidCep (Cep req) = true ->
  json_Marshal_cep w (Cep req) = Some reqBody ->
  http_NewRequest w "POST" (serviceBURL w) = true ->
  client_Do w "POST" (serviceBURL w) reqBody = Response status (Some body) ->
  events_of (ServiceA.handleCepRequest w r) n
  = ([SpanStart n "handle_cep_request" (ctx_span (req_Context r));
      SpanStart (S n) "call_service_b" (Some n);
      RequestHeaderSet "Content-Type" "application/json";
      ClientDo {| ctx_span := Some (S n) |} "POST" (serviceBURL w) reqBody;
      BodyClose;
      SpanEnd (S n)]
    ++ (if (status =? 404)%Z then respond_events n 404 "can not find zipcode"
        else if (status =? 422)%Z then respond_events n 422 "invalid zipcode"
        else if (status =? 200)%Z
             then [HeaderSet "Content-Type" "application/json";
                   WriteHeader 200; Write body]
             else respond_events n 500 "internal server error")
    ++ [SpanEnd n])%list.
Proof.
  intros Hdec Hvalid Hmarshal Hnew Hdo.
  unfold_run. rewrite Hdec. cbn. rewrite Hvalid, Hmarshal, Hnew, Hdo. cbn.
  change StatusNotFound with 404%Z. change StatusUnprocessableEntity with 422%Z.
  change StatusOK with 200%Z.
  destruct (status =? 404)%Z; [reflexivity|].
  destruct (status =? 422)%Z; [reflexivity|].
  destruct (status =? 200)%Z; reflexivity.
Qed.

Lemma forward_on_response
      (w : World) (cep : string) (reqBody : bytes) (status : Z) (body : bytes) :
  json_Marshal_cep w cep = Some reqBody ->
  http_NewRequest w "POST" (serviceBURL w) = true ->
  client_Do w "POST" (serviceBURL w) reqBody = Response status (Some body) ->
  forward w cep
  = if (status =? 404)%Z then Err ServiceA.ErrCepNotFound
    else if (status =? 422)%Z then Err ServiceA.ErrInvalidCep
    else if (status =? 200)%Z then Ok body
    else Err (Errorf ("unexpected status code: " ++ format_int status)).
Proof.
  intros Hmarshal Hnew Hdo. unfold forward.
  unfold_run. rewrite Hmarshal, Hnew, Hdo. cbn.
  change StatusNotFound with 404%Z. change StatusUnprocessableEntity with 422%Z.
  change StatusOK with 200%Z.
  destruct (status =? 404)%Z; [reflexivity|].
  destruct (status =? 422)%Z; [reflexivity|].
  destruct (status =? 200)%Z; reflexivity.
Qed.

(** A response whose body cannot be read is a failed transfer: whatever its
    status, the call returns an error of kind Internal. *)
Lemma forward_on_broken_body
      (w : World) (cep : string) (reqBody : bytes) (status : Z) :
  json_Marshal_cep w cep = Some reqBody ->
  http_NewRequest w "POST" (serviceBURL w) = true ->
  client_Do w "POST" (serviceBURL w) reqBody = Response status None ->
  exists err, forward w cep = Err err /\ kind_in_A err = Internal.
Proof.
  intros Hmarshal Hnew Hdo. unfold forward.
  unfold_run. rewrite Hmarshal, Hnew, Hdo. cbn.
  eexists. split; reflexivity.
Qed.

(** C1, as stated, fails: [callServiceB] reads the body of the response
    before it looks at the status, so a response with status 404 whose
    body cannot be read is answered 500, not 404. *)
Lemma C1_counterexample : ~ every_response_is_mapped_by_status.
Proof.
  intros H.
  destruct (H world_cut request_ok 0 {| Cep := "01001000" |}
              (Demo.cep_body "01001000") 404%Z None
              eq_refl eq_refl eq_refl eq_refl eq_refl) as [H404 _].
  specialize (H404 eq_refl). vm_compute in H404. discriminate H404.
Qed.

(** C1, amended. For every response the entry orchestrator receives from
    the downstream service and whose body it reads to the end, the
    downstream status decides the local error kind: 404 gives NotFound,
    answered as 404; 422 gives UnprocessableInput, answered as 422; every
    other status that is not 200 gives Internal, answered as 500 with the
    message "internal server error". A response whose body cannot be read
    gives Internal, answered as 500 with that message, whatever its
    status. *)
Theorem C1_downstream_status_to_error_kind
        (w : World) (r : Request) (n : span) (req : CepRequest)
        (reqBody : bytes) (status : Z) (Body : option bytes) :
  decode_stream (json_Decode_CepRequest w) (req_Body r) = Some req ->
  ServiceA.isValidCep (Cep req) = true ->
  json_Marshal_cep w (Cep req) = Some reqBody ->
  http_NewRequest w "POST" (serviceBURL w) = true ->
  client_Do w "POST" (serviceBURL w) reqBody = Response status Body ->
  let evs := events_of (ServiceA.handleCepRequest w r) n in
  (forall body,
      Body = Some body ->
      (status = 404%Z ->
       (exists err, forward w (Cep req) = Err err /\ kind_in_A err = NotFound)
       /\ written_status evs = [status_of_kind NotFound]
       /\ written_body evs = error_body "can not find zipcode")
      /\ (status = 422%Z ->
          (exists err, forward w (Cep req) = Err err
                       /\ kind_in_A err = UnprocessableInput)
          /\ written_status evs = [status_of_kind UnprocessableInput]
          /\ written_body evs = error_body "invalid zipcode")
      /\ (status <> 200%Z -> status <> 404%Z -> status <> 422%Z ->
          (exists err, forward w (Cep req) = Err err /\ kind_in_A err = Internal)
          /\ written_status evs = [status_of_kind Internal]
          /\ written_body evs = error_body "internal server error"))
  /\ (Body = None ->
      (exists err, forward w (Cep req) = Err err /\ kind_in_A err = Internal)
      /\ written_status evs = [status_of_kind Internal]
      /\ written_body evs = error_body "internal server error").
Proof.
  intros Hdec Hvalid Hmarshal Hnew Hdo evs. subst evs. split.
  - intros body ->.
    rewrite (handleCepRequest_on_response w r n req reqBody status body) by assumption.
    rewrite (forward_on_response w (Cep req) reqBody status body) by assumption.
    repeat split.
    1-6: subst status; cbn; try reflexivity; eexists; split; reflexivity.
    all: apply Z.eqb_neq in H, H0, H1; rewrite H, H0, H1; try reflexivity.
    eexists; split; reflexivity.
  - intros ->. split.
    + exact (forward_on_broken_body w (Cep req) reqBody status Hmarshal Hnew Hdo).
    + unfold_run. rewrite Hdec. cbn. rewrite Hvalid. cbn.
      rewrite Hmarshal, Hnew. cbn. rewrite Hdo. cbn. split; reflexivity.
Qed.

Lemma C1_witness :
  written_status (events_of (ServiceA.handleCepRequest world_404 request_ok) 0)
  = [404%Z]
  /\ written_status (events_of (ServiceA.handleCepRequest world_422 request_ok) 0)
     = [422%Z]
  /\ written_body (events_of (ServiceA.handleCepRequest world_503 request_ok) 0)
     = error_body "internal server error"
  /\ written_status (events_of (ServiceA.handleCepRequest world_cut request_ok) 0)
     = [500%Z].
Proof.
  split; [|split; [|split]].
  - destruct (C1_downstream_status_to_error_kind
                world_404 request_ok 0
                {| Cep := "01001000" |} (Demo.cep_body "01001000") 404 (Some "")
                eq_refl eq_refl eq_refl eq_refl eq_refl) as [H _].
    destruct (H "" eq_refl) as [H404 _]. apply H404. reflexivity.
  - destruct (C1_downstream_status_to_error_kind
                world_422 request_ok 0
                {| Cep := "01001000" |} (Demo.cep_body "01001000") 422 (Some "")
                eq_refl eq_refl eq_refl eq_refl eq_refl) as [H _].
    destruct (H "" eq_refl) as (_ & H422 & _). apply H422. reflexivity.
  - destruct (C1_downstream_status_to_error_kind
                world_503 request_ok 0
                {| Cep := "01001000" |} (Demo.cep_body "01001000") 503 (Some "")
                eq_refl eq_refl eq_refl eq_refl eq_refl) as [H _].
    destruct (H "" eq_refl) as (_ & _ & H503). apply H503; discriminate.
  - destruct (C1_downstream_status_to_error_kind
                world_cut request_ok 0
                {| Cep := "01001000" |} (Demo.cep_body "01001000") 404 None
                eq_refl eq_refl eq_refl eq_refl eq_refl) as [_ H].
    apply (H eq_refl).
Defined.

(** ** The two services together *)

Lemma client_Do_with_downstream (w : World) (body : bytes) :
  client_Do (with_downstream w) "POST" (serviceBURL (with_downstream w)) body
  = serve w body.
Proof. cbn. now rewrite String.eqb_refl. Qed.

(** What the downstream handler answers depends on the request only
    through what its body decodes to. *)
Lemma handleWeatherRequest_answer_by_decoded
      (w : World) (r r' : Request) (n n' : span) :
  decode_stream (json_Decode_CepRequest w) (req_Body r)
  = decode_stream (json_Decode_CepRequest w) (req_Body r') ->
  written_status (events_of (ServiceB.handleWeatherRequest w r) n)
  = written_status (events_of (ServiceB.handleWeatherRequest w r') n')
  /\ written_body (events_of (ServiceB.handleWeatherRequest w r) n)
     = written_body (events_of (ServiceB.handleWeatherRequest w r') n').
Proof.
  intros Hdec. unfold_run. revert Hdec.
  destruct (req_Body r) as [b|], (req_Body r') as [b'|]; cbn.
  all: try destruct (json_Decode_CepRequest w b) as [c|].
  all: try destruct (json_Decode_CepRequest w b') as [c'|].
  all: intros Hdec; try discriminate Hdec.
  all: try (injection Hdec as <-).
  all: split_run; split; reflexivity.
Qed.

(** A request that decodes and validates is never answered 422. *)
Lemma handleWeatherRequest_valid_status
      (w : World) (r : Request) (n : span) (req : CepRequest) :
  decode_stream (json_Decode_CepRequest w) (req_Body r) = Some req ->
  ServiceB.isValidCep (Cep req) = true ->
  exists c, written_status (events_of (ServiceB.handleWeatherRequest w r) n) = [c]
            /\ (c = 200 \/ c = 404 \/ c = 500)%Z.
Proof.
  intros Hdec Hvalid. unfold_run. rewrite Hdec. cbn. rewrite Hvalid.
  split_run; eexists; (split; [reflexivity|]); auto.
Qed.

Lemma handleWeatherRequest_report
      (w : World) (r : Request) (n : span) :
  In 200%Z (written_status (events_of (ServiceB.handleWeatherRequest w r) n)) ->
  exists report,
    written_body (events_of (ServiceB.handleWeatherRequest w r) n)
    = [Json (PResult report)]
    /\ TempF report
       = ServiceB.celsiusToFahrenheit (fused_multiply_add w) (TempC report)
    /\ TempK report = ServiceB.celsiusToKelvin (TempC report).
Proof.
  unfold_run. split_run; intros H.
  all: try (exfalso; intuition discriminate).
  all: eexists; repeat split; reflexivity.
Qed.

Lemma isValidCep_A_B (s : string) : ServiceA.isValidCep s = ServiceB.isValidCep s.
Proof. reflexivity. Qed.

(** What the downstream service answers to the body the entry orchestrator
    posts, when that body decodes to the validated code. *)
Lemma serve_forwarded
      (w : World) (r : Request) (m : span) (req : CepRequest) (reqBody : bytes) :
  decode_stream (json_Decode_CepRequest w) (req_Body r) = Some req ->
  ServiceB.isValidCep (Cep req) = true ->
  json_Decode_CepRequest w reqBody = Some req ->
  exists c,
    written_status (events_of (ServiceB.handleWeatherRequest w r) m) = [c]
    /\ (c = 200 \/ c = 404 \/ c = 500)%Z
    /\ serve w reqBody
       = Response c (Some (wire_body w (events_of (ServiceB.handleWeatherRequest w r) m))).
Proof.
  intros Hdec Hvalid Hround.
  destruct (handleWeatherRequest_valid_status w r m req Hdec Hvalid) as (c & Hc & Hrange).
  exists c. split; [exact Hc|]. split; [exact Hrange|].
  unfold serve, wire_body.
  destruct (handleWeatherRequest_answer_by_decoded w
              {| req_Context := background; req_Body := Some reqBody |} r 0 m)
    as [Hs Hb].
  { cbn. rewrite Hround. symmetry. exact Hdec. }
  rewrite Hs, Hb, Hc. reflexivity.
Qed.

Lemma concat_single (s : string) : String.concat "" [s] = s.
Proof. reflexivity. Qed.

(** C4. For every valid code that the downstream orchestrator resolves
    (it answers 200), the body the entry orchestrator returns with status
    200 is byte for byte the body the downstream orchestrator produced: the
    handler writes the bytes it read and encodes nothing, so the city and
    the temperatures seen through the entry orchestrator are those of the
    report the downstream orchestrator returns directly. *)
Theorem C4_success_body_verbatim
        (w : World) (r : Request) (n m : span) (req : CepRequest) (reqBody : bytes) :
  decode_stream (json_Decode_CepRequest w) (req_Body r) = Some req ->
  ServiceA.isValidCep (Cep req) = true ->
  json_Marshal_cep w (Cep req) = Some reqBody ->
  http_NewRequest w "POST" (serviceBURL w) = true ->
  json_Decode_CepRequest w reqBody = Some req ->
  (forall body,
      client_Do w "POST" (serviceBURL w) reqBody = Response 200 (Some body) ->
      written_status (events_of (ServiceA.handleCepRequest w r) n) = [200%Z]
      /\ written_body (events_of (ServiceA.handleCepRequest w r) n) = [Raw body])
  /\ (let direct := events_of (ServiceB.handleWeatherRequest w r) m in
      let through := events_of (ServiceA.handleCepRequest (with_downstream w) r) n in
      written_status direct = [200%Z] ->
      written_status through = [200%Z]
      /\ written_body through = [Raw (wire_body w direct)]
      /\ wire_body (with_downstream w) through = wire_body w direct
      /\ exists report,
          written_body direct = [Json (PResult report)]
          /\ wire_body (with_downstream w) through = render w (Json (PResult report))).
Proof.
  intros Hdec Hvalid Hmarshal Hnew Hround. split.
  - intros body Hdo.
    rewrite (handleCepRequest_on_response w r n req reqBody 200 body) by assumption.
    split; reflexivity.
  - intros direct through Hok. subst direct through.
    destruct (serve_forwarded w r m req reqBody Hdec Hvalid Hround)
      as (c & Hc & _ & Hserve).
    rewrite Hok in Hc. injection Hc as <-.
    rewrite (handleCepRequest_on_response (with_downstream w) r n req reqBody 200
               (wire_body w (events_of (ServiceB.handleWeatherRequest w r) m)));
      try assumption.
    2: { rewrite client_Do_with_downstream. exact Hserve. }
    cbn [Z.eqb Pos.eqb app written_status written_body].
    unfold wire_body at 1 3. cbn [written_body map render].
    rewrite concat_single.
    repeat split.
    destruct (handleWeatherRequest_report w r m) as (report & Hbody & _).
    { rewrite Hok. now left. }
    exists report. split; [exact Hbody|].
    unfold wire_body. rewrite Hbody. reflexivity.
Qed.

Lemma C4_witness :
  wire_body (with_downstream world_ok)
    (events_of (ServiceA.handleCepRequest (with_downstream world_ok) request_ok) 0)
  = wire_body world_ok (events_of (ServiceB.handleWeatherRequest world_ok request_ok) 7)
  /\ written_body (events_of (ServiceA.handleCepRequest world_ok request_ok) 0)
     = [Raw "{}"].
Proof.
  destruct (C4_success_body_verbatim world_ok request_ok 0 7
              {| Cep := "01001000" |} (Demo.cep_body "01001000")
              eq_refl eq_refl eq_refl eq_refl eq_refl) as [Halone Hboth].
  split.
  - apply (Hboth eq_refl).
  - apply (Halone "{}" eq_refl).
Defined.

(** C9. The two validators are extensionally equal, and the entry
    orchestrator forwards the validated code in a body that decodes
    downstream to the same string; so for every request whose code passes
    the entry validation, the downstream validation passes too, the
    downstream handler does not answer 422, the forwarding call never
    returns [ErrInvalidCep], and the entry orchestrator does not answer 422:
    its branch for a downstream 422 is not reached. *)
Theorem C9_validated_code_never_refused_downstream
        (w : World) (r : Request) (n : span) (req : CepRequest) (reqBody : bytes) :
  decode_stream (json_Decode_CepRequest w) (req_Body r) = Some req ->
  ServiceA.isValidCep (Cep req) = true ->
  json_Marshal_cep w (Cep req) = Some reqBody ->
  json_Decode_CepRequest w reqBody = Some req ->
  (forall s, ServiceA.isValidCep s = ServiceB.isValidCep s)
  /\ ServiceB.isValidCep (Cep req) = true
  /\ (forall m,
         ~ In 422%Z
           (written_status
              (events_of (ServiceB.handleWeatherRequest w
                            {| req_Context := background; req_Body := Some reqBody |}) m)))
  /\ (forall err,
         forward (with_downstream w) (Cep req) = Err err ->
         errors_Is err ServiceA.ErrInvalidCep = false)
  /\ ~ In 422%Z
       (written_status (events_of (ServiceA.handleCepRequest (with_downstream w) r) n)).
Proof.
  intros Hdec Hvalid Hmarshal Hround.
  assert (HvalidB : ServiceB.isValidCep (Cep req) = true)
    by (rewrite <- isValidCep_A_B; exact Hvalid).
  split; [exact isValidCep_A_B|]. split; [exact HvalidB|].
  destruct (serve_forwarded w r 0 req reqBody Hdec HvalidB Hround)
    as (c & _ & Hrange & Hserve).
  split; [|split].
  - intros m.
    destruct (handleWeatherRequest_valid_status w
                {| req_Context := background; req_Body := Some reqBody |} m req)
      as (c' & Hc' & Hrange'); [exact Hround | exact HvalidB |].
    rewrite Hc'. cbn. intros [E|[]]. lia.
  - intros err.
    destruct (http_NewRequest w "POST" (serviceBURL w)) eqn:Hnew.
    + rewrite (forward_on_response (with_downstream w) (Cep req) reqBody c _
                 Hmarshal Hnew
                 (eq_trans (client_Do_with_downstream w reqBody) Hserve)).
      destruct Hrange as [-> | [-> | ->]]; cbn; intros E; try discriminate E.
      all: injection E as <-; reflexivity.
    + unfold forward. unfold_run. cbn. rewrite Hmarshal, Hnew. cbn.
      intros E. injection E as <-. reflexivity.
  - destruct (http_NewRequest w "POST" (serviceBURL w)) eqn:Hnew.
    + rewrite (handleCepRequest_on_response (with_downstream w) r n req reqBody c _
                 Hdec Hvalid Hmarshal Hnew
                 (eq_trans (client_Do_with_downstream w reqBody) Hserve)).
      destruct Hrange as [-> | [-> | ->]]; cbn; intuition discriminate.
    + unfold_run. cbn. rewrite Hdec. cbn. rewrite Hvalid. cbn.
      rewrite Hmarshal, Hnew. cbn. intuition discriminate.
Qed.

Lemma C9_witness :
  ~ In 422%Z
    (written_status
       (events_of (ServiceA.handleCepRequest (with_downstream world_ok) request_ok) 0)).
Proof.
  apply (C9_validated_code_never_refused_downstream world_ok request_ok 0
           {| Cep := "01001000" |} (Demo.cep_body "01001000")
           eq_refl eq_refl eq_refl eq_refl).
Defined.

(** ** Location resolution *)

Lemma getCepInfo_classified (w : World) (cep : string) :
  resolution_of (resolve w cep) = resolveLocation_spec is_200 w cep.
Proof.
  unfold resolve, resolveLocation_spec, is_200. unfold_run.
  change StatusOK with 200%Z.
  split_run; reflexivity.
Qed.

(** C3, as stated, fails: the code accepts the status 200 only, so an
    answer with another 2xx status (here 201) whose record has the [erro]
    flag set fails with Internal where the claim says NotFound. *)
Lemma C3_counterexample :
  resolution_of (resolve world_201 "01001000")
  <> resolveLocation_spec is_2xx world_201 "01001000".
Proof. vm_compute. discriminate. Qed.

(** C3, amended. [getCepInfo] fails with NotFound exactly when the
    provider answers with status 200 and a readable, well-formed record
    whose [erro] flag is set; it fails with Internal on any transport
    failure, any status other than 200, or a malformed payload; and on
    success it returns the record's locality field. *)
Theorem C3_resolveLocation_by_status_200
        (w : World) (ctx : context) (cep : string) (n : span) :
  let outcome := resolution_of (value_of (ServiceB.getCepInfo w ctx cep) n) in
  let answer := client_Do w "GET" (ServiceB.viacep_url cep) "" in
  let sent := http_NewRequest w "GET" (ServiceB.viacep_url cep) in
  outcome = resolveLocation_spec is_200 w cep
  /\ (outcome = Failed NotFound
      <-> exists body record,
          sent = true /\ answer = Response 200 (Some body)
          /\ json_Unmarshal_ViaCep w body = Some record /\ Erro record = true)
  /\ (forall city,
         outcome = Resolved city
         <-> exists body record,
           sent = true /\ answer = Response 200 (Some body)
           /\ json_Unmarshal_ViaCep w body = Some record /\ Erro record = false
           /\ city = Localidade record)
  /\ (outcome = Failed Internal
      <-> sent = false \/ answer = DoError
          \/ (exists code body, answer = Response code body /\ code <> 200%Z)
          \/ (exists code, answer = Response code None)
          \/ (exists code body, answer = Response code (Some body)
                                /\ json_Unmarshal_ViaCep w body = None)).
Proof.
  intros outcome answer sent. subst outcome answer sent.
  rewrite getCepInfo_value, getCepInfo_classified.
  unfold resolveLocation_spec, is_200.
  destruct (http_NewRequest w "GET" (ServiceB.viacep_url cep)); cbn.
  2: { split; [reflexivity|]. split; [|split].
       - split; [discriminate|]. intros (b & rec & H & _). discriminate H.
       - intros city. split; [discriminate|]. intros (b & rec & H & _). discriminate H.
       - split; auto. }
  destruct (client_Do w "GET" (ServiceB.viacep_url cep) "") as [|code body]; cbn.
  { split; [reflexivity|]. split; [|split].
    - split; [discriminate|]. intros (b & rec & _ & H & _). discriminate H.
    - intros city. split; [discriminate|]. intros (b & rec & _ & H & _). discriminate H.
    - split; auto. }
  destruct (Z.eqb_spec code 200) as [->|Hcode]; cbn.
  2: { split; [reflexivity|]. split; [|split].
       - split; [discriminate|]. intros (b & rec & _ & H & _). congruence.
       - intros city. split; [discriminate|]. intros (b & rec & _ & H & _). congruence.
       - split; [|reflexivity]. intros _. right. right. left. eauto. }
  destruct body as [b|].
  2: { split; [reflexivity|]. split; [|split].
       - split; [discriminate|]. intros (b & rec & _ & H & _). discriminate H.
       - intros city. split; [discriminate|]. intros (b & rec & _ & H & _). discriminate H.
       - split; [|reflexivity]. intros _. right. right. right. left. eauto. }
  destruct (json_Unmarshal_ViaCep w b) as [rec|] eqn:Hrec.
  2: { split; [reflexivity|]. split; [|split].
       - split; [discriminate|]. intros (b' & rec & _ & H & H' & _). congruence.
       - intros city. split; [discriminate|]. intros (b' & rec & _ & H & H' & _). congruence.
       - split; [|reflexivity]. intros _. right. right. right. right. eauto. }
  destruct (Erro rec) eqn:Herro.
  - split; [reflexivity|]. split; [|split].
    + split; [|reflexivity]. intros _. exists b, rec. auto.
    + intros city. split; [discriminate|].
      intros (b' & rec' & _ & H & H' & H'' & _). congruence.
    + split; [discriminate|].
      intros [H|[H|[(c & b' & H & H')|[(c & H)|(c & b' & H & H')]]]];
        try discriminate; congruence.
  - split; [reflexivity|]. split; [|split].
    + split; [discriminate|].
      intros (b' & rec' & _ & H & H' & H''). congruence.
    + intros city. split.
      * intros H. injection H as <-. exists b, rec. auto.
      * intros (b' & rec' & _ & H & H' & H'' & ->). congruence.
    + split; [discriminate|].
      intros [H|[H|[(c & b' & H & H')|[(c & H)|(c & b' & H & H')]]]];
        try discriminate; congruence.
Qed.

(** ** An empty locality is a locality *)

(** C10. When the postal-code provider answers with status 200 and a
    body that decodes to a record whose [erro] flag is false,
    [getCepInfo] succeeds and returns the record's [localidade] as it is,
    the empty string included (the field was absent or empty); the
    downstream orchestrator then goes on to the weather step and queries
    the weather provider with that city, URL-escaped, instead of failing. *)
Theorem C10_locality_returned_verbatim
        (w : World) (r : Request) (n : span) (req : CepRequest)
        (body : bytes) (record : ViaCepResponse) :
  decode_stream (json_Decode_CepRequest w) (req_Body r) = Some req ->
  ServiceB.isValidCep (Cep req) = true ->
  http_NewRequest w "GET" (ServiceB.viacep_url (Cep req)) = true ->
  client_Do w "GET" (ServiceB.viacep_url (Cep req)) "" = Response 200 (Some body) ->
  json_Unmarshal_ViaCep w body = Some record ->
  Erro record = false ->
  let city := Localidade record in
  let evs := events_of (ServiceB.handleWeatherRequest w r) n in
  let weather_query :=
    "https://api.weatherapi.com/v1/current.json?key=" ++ weatherApiKey w
      ++ "&q=" ++ url_QueryEscape w city ++ "&aqi=no" in
  (forall ctx m, value_of (ServiceB.getCepInfo w ctx (Cep req)) m = Ok city)
  /\ started evs = ["handle_weather_request"; "get_cep_info"; "get_weather_info"]
  /\ (http_NewRequest w "GET" weather_query = true ->
      outbound evs = [("GET", ServiceB.viacep_url (Cep req)); ("GET", weather_query)])
  /\ (forall weather,
         fetch w city = Ok weather ->
         written_status evs = [200%Z]
         /\ exists report,
             written_body evs = [Json (PResult report)] /\ City report = city).
Proof.
  intros Hdec Hvalid Hnew Hdo Hrec Herro city evs weather_query.
  subst city evs weather_query.
  assert (Hresolve : resolve w (Cep req) = Ok (Localidade record)).
  { unfold resolve. unfold_run. cbn. rewrite Hnew, Hdo. cbn.
    rewrite Hrec, Herro. reflexivity. }
  split; [intros ctx m; rewrite getCepInfo_value; exact Hresolve|].
  change ("https://api.weatherapi.com/v1/current.json?key=" ++ weatherApiKey w
            ++ "&q=" ++ url_QueryEscape w (Localidade record) ++ "&aqi=no")
    with (ServiceB.weather_url w (Localidade record)).
  unfold fetch. unfold_run. rewrite Hdec. cbn. rewrite Hvalid. cbn.
  rewrite Hnew, Hdo. cbn. rewrite Hrec, Herro. cbn.
  split; [|split].
  - split_run; reflexivity.
  - intros Hq. rewrite Hq. cbn. split_run; reflexivity.
  - intros weather. split_run; intros Hw; tidy.
    split; [reflexivity|]. eexists. split; reflexivity.
Qed.

Lemma C10_witness :
  started (events_of (ServiceB.handleWeatherRequest world_no_city request_ok) 0)
  = ["handle_weather_request"; "get_cep_info"; "get_weather_info"]
  /\ outbound (events_of (ServiceB.handleWeatherRequest world_no_city request_ok) 0)
     = [("GET", "https://viacep.com.br/ws/01001000/json/");
        ("GET", "https://api.weatherapi.com/v1/current.json?key=KEY&q=&aqi=no")]
  /\ resolve world_no_city "01001000" = Ok "".
Proof.
  destruct (C10_locality_returned_verbatim world_no_city request_ok 0
              {| Cep := "01001000" |} Demo.viacep_no_city
              (Demo.viacep_record "" false)
              eq_refl eq_refl eq_refl eq_refl eq_refl eq_refl)
    as (Hvalue & Hstarted & Hout & _).
  split; [exact Hstarted|]. split; [exact (Hout eq_refl)|].
  exact (Hvalue background 0).
Defined.

(** ** Temperature conversion *)

(** C6, as stated, fails: Go leaves to the compiler whether
    [celsius*1.8 + 32] is rounded after the product and after the sum or
    once; rounded twice, the value at 28.5 is not the double written 83.3. *)
Lemma C6_counterexample :
  ~ (forall fused : bool,
        ServiceB.celsiusToFahrenheit fused 28.5 = 83.3%float
        /\ ServiceB.celsiusToKelvin 28.5 = 301.5%float).
Proof.
  intros H. destruct (H false) as [H' _].
  apply (f_equal Prim2SF) in H'. vm_compute in H'. discriminate H'.
Qed.

(** C6, amended. For every input temperature the conversions are pure
    functions of float64 arithmetic: tempK is tempC + 273, rounded once;
    tempF is tempC*1.8 + 32, rounded after the product and after the sum or,
    where the compiler fuses the two operations, once. For tempC = 28.5
    they give tempK = 301.5, and tempF = 83.3 when fused and
    83.30000000000001, the next double, when not: with the doubles 28.5
    and 1.8 the exact value of the formula lies within half a unit in the
    last place of the double 83.3, and farther from the other. *)
Theorem C6_conversions_in_binary64 :
  (forall tempC : float,
      Prim2SF (ServiceB.celsiusToFahrenheit false tempC)
      = SF64add (SF64mul (Prim2SF tempC) (Prim2SF 1.8)) (Prim2SF 32)
      /\ ServiceB.celsiusToFahrenheit true tempC = fma tempC 1.8 32
      /\ Prim2SF (ServiceB.celsiusToKelvin tempC)
         = SF64add (Prim2SF tempC) (Prim2SF 273))
  /\ ServiceB.celsiusToFahrenheit true 28.5 = 83.3%float
  /\ ServiceB.celsiusToFahrenheit false 28.5 = 0x1.4d33333333334p+6%float
  /\ ServiceB.celsiusToFahrenheit false 28.5 = PrimFloat.next_up 83.3
  /\ ServiceB.celsiusToKelvin 28.5 = 301.5%float
  /\ (let exact := (scaled 100 28.5 * scaled 100 1.8 + scaled 200 32)%Z in
      let ulp := (2 ^ (200 - 46))%Z in
      (2 * Z.abs (exact - scaled 200 (ServiceB.celsiusToFahrenheit true 28.5)) < ulp)%Z
      /\ (ulp < 2 * Z.abs (exact - scaled 200 (ServiceB.celsiusToFahrenheit false 28.5)))%Z
      /\ (scaled 200 28.5 + scaled 200 273
          = scaled 200 (ServiceB.celsiusToKelvin 28.5))%Z).
Proof.
  split.
  - intros tempC. unfold ServiceB.celsiusToFahrenheit, ServiceB.celsiusToKelvin.
    rewrite !add_spec, mul_spec. repeat split.
  - repeat split; vm_compute; reflexivity.
Qed.

(** ** Spans *)

(** A deferred call changes nothing of what the body returns and runs
    right after the body's effects. *)
Lemma defer_value {A : Type} (deferred : M unit) (body : M A) (n : span) :
  value_of (defer deferred body) n = value_of body n.
Proof.
  unfold value_of, defer, bind, ret.
  destruct (body n) as [[a n1] e1]. destruct (deferred n1) as [[u n2] e2].
  reflexivity.
Qed.

Lemma defer_events {A : Type} (deferred : M unit) (body : M A) (n : span) :
  events_of (defer deferred body) n
  = (events_of body n ++ events_of deferred (snd (fst (body n))))%list.
Proof.
  unfold events_of, defer, bind, ret.
  destruct (body n) as [[a n1] e1]. cbn.
  destruct (deferred n1) as [[u n2] e2]. cbn.
  now rewrite app_nil_r.
Qed.

Lemma count_end_app (id : span) (e1 e2 : list event) :
  count_end id (e1 ++ e2) = count_end id e1 + count_end id e2.
Proof.
  induction e1 as [|e e1 IH]; [reflexivity|].
  destruct e; cbn; rewrite IH; lia.
Qed.

(** Whatever the body does and however it returns, deferring the end of a
    span ends it once more than the body itself does. *)
Lemma defer_span_End_once {A : Type} (sp : span) (body : M A) (n : span) :
  count_end sp (events_of (defer (span_End sp) body) n)
  = S (count_end sp (events_of body n)).
Proof.
  rewrite defer_events, count_end_app. cbn. rewrite Nat.eqb_refl. lia.
Qed.

Ltac count_ids :=
  intros; cbn;
  repeat match goal with
         | |- context [Nat.eqb ?x ?y] => destruct (Nat.eqb_spec x y)
         end;
  (reflexivity || lia).

Ltac span_discipline :=
  unfold span_ended_once;
  repeat split; try (repeat (cbn; ids); reflexivity); count_ids.

Lemma handleCepRequest_spans (w : World) (r : Request) (n : span) :
  span_ended_once n "handle_cep_request" (ctx_span (req_Context r))
    (events_of (ServiceA.handleCepRequest w r) n).
Proof. unfold_run. split_run; span_discipline. Qed.

Lemma callServiceB_spans (w : World) (ctx : context) (cep : string) (n : span) :
  span_ended_once n "call_service_b" (ctx_span ctx)
    (events_of (ServiceA.callServiceB w ctx cep) n).
Proof. unfold_run. split_run; span_discipline. Qed.

Lemma handleWeatherRequest_spans (w : World) (r : Request) (n : span) :
  span_ended_once n "handle_weather_request" (ctx_span (req_Context r))
    (events_of (ServiceB.handleWeatherRequest w r) n).
Proof. unfold_run. split_run; span_discipline. Qed.

Lemma getCepInfo_spans (w : World) (ctx : context) (cep : string) (n : span) :
  span_ended_once n "get_cep_info" (ctx_span ctx)
    (events_of (ServiceB.getCepInfo w ctx cep) n).
Proof. unfold_run. split_run; span_discipline. Qed.

Lemma getWeatherInfo_spans (w : World) (ctx : context) (city : string) (n : span) :
  span_ended_once n "get_weather_info" (ctx_span ctx)
    (events_of (ServiceB.getWeatherInfo w ctx city) n).
Proof. unfold_run. split_run; span_discipline. Qed.

(** C7. Every operation that starts a span (request handling in either
    orchestrator, the call to the downstream service, each call to a
    provider) ends that span exactly once on every exit path, whether it
    returns a value, a typed failure or any other error, early or not: the
    span is started first and ended last, once, and the spans started
    inside it are ended once each before it. *)
Theorem C7_every_span_ended_exactly_once (w : World) :
  (forall r n,
      span_ended_once n "handle_cep_request" (ctx_span (req_Context r))
        (events_of (ServiceA.handleCepRequest w r) n))
  /\ (forall ctx cep n,
         span_ended_once n "call_service_b" (ctx_span ctx)
           (events_of (ServiceA.callServiceB w ctx cep) n))
  /\ (forall r n,
         span_ended_once n "handle_weather_request" (ctx_span (req_Context r))
           (events_of (ServiceB.handleWeatherRequest w r) n))
  /\ (forall ctx cep n,
         span_ended_once n "get_cep_info" (ctx_span ctx)
           (events_of (ServiceB.getCepInfo w ctx cep) n))
  /\ (forall ctx city n,
         span_ended_once n "get_weather_info" (ctx_span ctx)
           (events_of (ServiceB.getWeatherInfo w ctx city) n)).
Proof.
  split; [intros; apply handleCepRequest_spans|].
  split; [intros; apply callServiceB_spans|].
  split; [intros; apply handleWeatherRequest_spans|].
  split; [intros; apply getCepInfo_spans|].
  intros; apply getWeatherInfo_spans.
Qed.

(** ** The error event *)

Ltac prefix_before evs :=
  lazymatch evs with
  | SpanAddEvent _ _ _ :: _ => constr:(@nil event)
  | ?e :: ?evs' => let p := prefix_before evs' in constr:(e :: p)
  end.


(** C8. On every failure path of either orchestrator, an event named
    "error_response" that carries the resulting HTTP status code is added
    to the active span (the handler's span, open and innermost) before the
    error response is written to the client. *)
Theorem C8_error_event_before_error_response
        (w : World) (r : Request) (n : span) :
  let entry := events_of (ServiceA.handleCepRequest w r) n in
  let downstream := events_of (ServiceB.handleWeatherRequest w r) n in
  (errors_announced [] None false entry = true
   /\ forall code, In code (written_status entry) -> code <> 200%Z ->
                   exists before after,
                     entry = (before ++ respond_events n code
                                         (match code with
                                          | 404 => "can not find zipcode"
                                          | 422 => "invalid zipcode"
                                          | _ => "internal server error"
                                          end%Z) ++ after)%list
                     /\ count_end n before = 0 /\ written_status before = [])
  /\ (errors_announced [] None false downstream = true
      /\ forall code, In code (written_status downstream) -> code <> 200%Z ->
                      exists before after,
                        downstream = (before ++ respond_events n code
                                         (match code with
                                          | 404 => "can not find zipcode"
                                          | 422 => "invalid zipcode"
                                          | _ => "internal server error"
                                          end%Z) ++ after)%list
                        /\ count_end n before = 0 /\ written_status before = []).
Proof.
  intros entry downstream. subst entry downstream.
  split; (split; [| intros code]); unfold_run.
  all: split_run.
  all: try (repeat (cbn; ids); reflexivity).
  all: intros [<-|[]] Hcode; try (exfalso; apply Hcode; reflexivity).
  all: match goal with
       | |- exists before after, ?evs = _ /\ _ =>
           let p := prefix_before evs in exists p, [SpanEnd n]
       end.
  all: repeat (cbn; ids); repeat split; reflexivity.
Qed.

Lemma C8_witness :
  (exists before after,
      events_of (ServiceA.handleCepRequest world_404 request_ok) 0
      = (before ++ respond_events 0 404 "can not find zipcode" ++ after)%list
      /\ count_end 0 before = 0 /\ written_status before = [])
  /\ (exists before after,
         events_of (ServiceB.handleWeatherRequest world_404 request_ok) 0
         = (before ++ respond_events 0 500 "internal server error" ++ after)%list
         /\ count_end 0 before = 0 /\ written_status before = []).
Proof.
  destruct (C8_error_event_before_error_response world_404 request_ok 0)
    as [[_ Hentry] [_ Hdownstream]].
  split.
  - apply (Hentry 404%Z); [left; reflexivity | discriminate].
  - apply (Hdownstream 500%Z); [left; reflexivity | discriminate].
Defined.

(** * Further properties of the code *)

(** ** The entry orchestrator: what it answers by itself *)

(** X1. The entry orchestrator answers 422 "invalid zipcode" by itself when
    the body does not decode or the code does not validate: it makes no
    outbound request and starts no span but its own. *)
Theorem entry_rejects_without_forwarding (w : World) (r : Request) (n : span) :
  let evs := events_of (ServiceA.handleCepRequest w r) n in
  let decoded := decode_stream (json_Decode_CepRequest w) (req_Body r) in
  (decoded = None \/ exists req, decoded = Some req /\ ServiceA.isValidCep (Cep req) = false) ->
  written_status evs = [422%Z]
  /\ written_body evs = error_body "invalid zipcode"
  /\ requests evs = []
  /\ started evs = ["handle_cep_request"].
Proof.
  intros evs decoded H. subst evs decoded. revert H. unfold_run.
  split_run; intros [H|(req & H & H')]; tidy; try congruence.
  all: repeat split; reflexivity.
Qed.

(** X2. For a validated code, every failure to obtain the downstream
    answer (the body cannot be marshalled, the request cannot be created,
    the round trip fails, or the body of the response cannot be read,
    whatever its status) is answered 500 "internal server error". *)
Theorem entry_transport_failure_is_internal
        (w : World) (r : Request) (n : span) (req : CepRequest) :
  decode_stream (json_Decode_CepRequest w) (req_Body r) = Some req ->
  ServiceA.isValidCep (Cep req) = true ->
  (json_Marshal_cep w (Cep req) = None
   \/ http_NewRequest w "POST" (serviceBURL w) = false
   \/ exists reqBody,
       json_Marshal_cep w (Cep req) = Some reqBody
       /\ (client_Do w "POST" (serviceBURL w) reqBody = DoError
           \/ exists status,
               client_Do w "POST" (serviceBURL w) reqBody = Response status None)) ->
  let evs := events_of (ServiceA.handleCepRequest w r) n in
  written_status evs = [500%Z]
  /\ written_body evs = error_body "internal server error"
  /\ exists err, forward w (Cep req) = Err err /\ kind_in_A err = Internal.
Proof.
  intros Hdec Hvalid H evs. subst evs. unfold forward. revert Hdec H. unfold_run.
  intros Hdec. rewrite Hdec. cbn. rewrite Hvalid. cbn.
  intros [H|[H|(reqBody & H & [H'|(status & H')])]].
  - rewrite H. cbn. repeat split. eexists; split; reflexivity.
  - destruct (json_Marshal_cep w (Cep req)); rewrite ?H; cbn.
    all: repeat split; eexists; split; reflexivity.
  - rewrite H. cbn.
    destruct (http_NewRequest w "POST" (serviceBURL w)); cbn; rewrite ?H'; cbn.
    all: repeat split; eexists; split; reflexivity.
  - rewrite H. cbn.
    destruct (http_NewRequest w "POST" (serviceBURL w)); cbn; rewrite ?H'; cbn.
    all: repeat split; eexists; split; reflexivity.
Qed.

(** ** The shape of every answer *)

Lemma handleWeatherRequest_answer (w : World) (r : Request) (n : span) :
  exists c p,
    writer_calls (events_of (ServiceB.handleWeatherRequest w r) n)
    = [json_header; WritesStatus c; BodyCall p]
    /\ written_status (events_of (ServiceB.handleWeatherRequest w r) n) = [c]
    /\ written_body (events_of (ServiceB.handleWeatherRequest w r) n) = [p]
    /\ ((c = 200%Z /\ exists report, p = Json (PResult report))
        \/ ((c = 404 \/ c = 422 \/ c = 500)%Z
            /\ p = Json (PError {| Message := fixed_message c |}))).
Proof.
  unfold_run. split_run.
  all: do 2 eexists; (split; [reflexivity|]); (split; [reflexivity|]);
    (split; [reflexivity|]).
  all: first [ left; split; [reflexivity|]; eexists; reflexivity
             | right; split; [|reflexivity]; auto ].
Qed.



(** A reading the providers can give overflows the conversion: the report
    then has an infinite Fahrenheit value, which JSON cannot express. *)
Lemma celsiusToFahrenheit_overflows (fused : bool) :
  ServiceB.celsiusToFahrenheit fused 1e308 = infinity.
Proof. destruct fused; vm_compute; reflexivity. Qed.


(** ** The weather step *)

(** X4. [getWeatherInfo] returns a weather record exactly when the request
    can be created, the provider answers 200 and the body decodes, and it
    returns the decoded record; every error it returns is of kind
    Internal, never NotFound. *)
Theorem getWeatherInfo_result (w : World) (ctx : context) (city : string) (n : span) :
  let value := value_of (ServiceB.getWeatherInfo w ctx city) n in
  let url := ServiceB.weather_url w city in
  (forall weather,
      value = Ok weather
      <-> http_NewRequest w "GET" url = true
          /\ exists body,
              client_Do w "GET" url "" = Response 200 body
              /\ decode_stream (json_Decode_Weather w) body = Some weather)
  /\ (forall err, value = Err err -> kind_in_B err = Internal).
Proof.
  intros value url. subst value url. rewrite getWeatherInfo_value. unfold fetch.
  unfold_run. change StatusOK with 200%Z.
  destruct (http_NewRequest w "GET" (ServiceB.weather_url w city)); cbn.
  2: { split.
       - intros weather. split; [discriminate|]. intros [H _]. discriminate H.
       - intros err H. injection H as <-. reflexivity. }
  destruct (client_Do w "GET" (ServiceB.weather_url w city) "") as [|code body]; cbn.
  { split.
    - intros weather. split; [discriminate|]. intros [_ (b & H & _)]. discriminate H.
    - intros err H. injection H as <-. reflexivity. }
  destruct (Z.eqb_spec code 200) as [->|Hcode]; cbn.
  2: { split.
       - intros weather. split; [discriminate|]. intros [_ (b & H & _)]. congruence.
       - intros err H. injection H as <-. reflexivity. }
  destruct body as [b|]; cbn.
  2: { split.
       - intros weather. split; [discriminate|].
         intros [_ (b & H & H')]. injection H as <-. discriminate H'.
       - intros err H. injection H as <-. reflexivity. }
  destruct (json_Decode_Weather w b) as [weather0|] eqn:Hdec; cbn.
  - split.
    + intros weather. split.
      * intros H. injection H as <-. split; [reflexivity|].
        exists (Some b). split; [reflexivity|exact Hdec].
      * intros [_ (b' & H & H')]. injection H as <-. cbn in H'. congruence.
    + intros err H. discriminate H.
  - split.
    + intros weather. split; [discriminate|].
      intros [_ (b' & H & H')]. injection H as <-. cbn in H'. congruence.
    + intros err H. injection H as <-. reflexivity.
Qed.

(** X5. [getWeatherInfo] logs exactly one line when it fails and nothing
    when it succeeds; [getCepInfo] and [callServiceB] never log. *)
Theorem only_a_failed_weather_step_logs
        (w : World) (ctx : context) (n : span) (cep city : string) :
  List.length (logged (events_of (ServiceB.getWeatherInfo w ctx city) n))
  = match fetch w city with Ok _ => 0 | Err _ => 1 end
  /\ logged (events_of (ServiceB.getCepInfo w ctx cep) n) = []
  /\ logged (events_of (ServiceA.callServiceB w ctx cep) n) = [].
Proof.
  unfold fetch. unfold_run. repeat split; split_run; reflexivity.
Qed.

(** X6. In each of the three outbound operations the body of a response
    is closed exactly once, right before the operation's span ends, when
    the round trip gave a response (whatever its status and whether or not
    its body can be read); nothing is closed when there is no response. *)
Theorem response_body_closed_once (w : World) (ctx : context) (n : span) (cep city : string) :
  closes_body_once n (events_of (ServiceB.getCepInfo w ctx cep) n)
    (http_NewRequest w "GET" (ServiceB.viacep_url cep)
     && answered (client_Do w "GET" (ServiceB.viacep_url cep) ""))
  /\ closes_body_once n (events_of (ServiceB.getWeatherInfo w ctx city) n)
       (http_NewRequest w "GET" (ServiceB.weather_url w city)
        && answered (client_Do w "GET" (ServiceB.weather_url w city) ""))
  /\ closes_body_once n (events_of (ServiceA.callServiceB w ctx cep) n)
       (match json_Marshal_cep w cep with
        | Some reqBody =>
            http_NewRequest w "POST" (serviceBURL w)
            && answered (client_Do w "POST" (serviceBURL w) reqBody)
        | None => false
        end).
Proof.
  unfold closes_body_once. unfold_run.
  repeat split; split_run; try reflexivity; split; reflexivity.
Qed.

(** ** The span tree and the outbound requests *)

(** X7. The spans the services start themselves ([tracer.Start]) nest
    under the handler's span: the handler's span is started first, under
    the span of the request context, and the spans of the steps
    ([get_cep_info], then [get_weather_info]; or [call_service_b]) are
    started as its children. The spans the otelhttp transport starts
    during a round trip are not among them. *)
Theorem spans_nest_under_the_handler (w : World) (r : Request) (n : span) :
  let parent := ctx_span (req_Context r) in
  (exists k,
      span_tree (events_of (ServiceB.handleWeatherRequest w r) n)
      = (n, "handle_weather_request", parent)
          :: firstn k [(S n, "get_cep_info", Some n);
                       (S (S n), "get_weather_info", Some n)])
  /\ (exists k,
         span_tree (events_of (ServiceA.handleCepRequest w r) n)
         = (n, "handle_cep_request", parent)
             :: firstn k [(S n, "call_service_b", Some n)]).
Proof.
  intros parent. subst parent. unfold_run. split; split_run.
  all: first [ exists 0; reflexivity | exists 1; reflexivity | exists 2; reflexivity ].
Qed.

(** X8. The downstream handler makes no outbound request, or one GET to
    the postal-code URL of the decoded, validated code, or that one
    followed by one GET to the weather URL of the resolved city, and only
    after the resolution succeeded; the entry handler makes no request or
    exactly one POST of the marshalled code to [serviceBURL]. Every
    request has an empty body unless it is that POST, and carries the
    context of the span of the operation that makes it. *)
Theorem outbound_requests_in_order (w : World) (r : Request) (n : span) :
  let downstream := requests (events_of (ServiceB.handleWeatherRequest w r) n) in
  let entry := requests (events_of (ServiceA.handleCepRequest w r) n) in
  (downstream = []
   \/ exists req,
       decode_stream (json_Decode_CepRequest w) (req_Body r) = Some req
       /\ ServiceB.isValidCep (Cep req) = true
       /\ (downstream = [(Some (S n), "GET", ServiceB.viacep_url (Cep req), "")]
           \/ exists city,
               resolve w (Cep req) = Ok city
               /\ (downstream = [(Some (S n), "GET", ServiceB.viacep_url (Cep req), "");
                                 (Some (S (S n)), "GET", ServiceB.weather_url w city, "")]
                   \/ (http_NewRequest w "GET" (ServiceB.weather_url w city) = false
                       /\ downstream
                          = [(Some (S n), "GET", ServiceB.viacep_url (Cep req), "")]))))
  /\ (entry = []
      \/ exists req reqBody,
          decode_stream (json_Decode_CepRequest w) (req_Body r) = Some req
          /\ ServiceA.isValidCep (Cep req) = true
          /\ json_Marshal_cep w (Cep req) = Some reqBody
          /\ entry = [(Some (S n), "POST", serviceBURL w, reqBody)]).
Proof.
  intros downstream entry. subst downstream entry. unfold resolve. unfold_run.
  split; split_run.
  all: try (left; reflexivity).
  all: right.
  all: try (do 2 eexists; repeat split; eassumption || reflexivity).
  all: eexists; split; [reflexivity|]; split; [assumption|].
  all: try (left; reflexivity).
  all: right; eexists; split;
    [ cbn; repeat match goal with H : _ = _ |- _ => rewrite H; cbn end; reflexivity |].
  all: first [ left; reflexivity | right; split; [assumption | reflexivity] ].
Qed.

(** ** The two hops as one service *)

Lemma wire_body_with_downstream (w : World) (evs : list event) :
  wire_body (with_downstream w) evs = wire_body w evs.
Proof. reflexivity. Qed.

(** With the downstream handler at the other end and a forwarded body that
    decodes to the validated code, the entry handler answers what the
    downstream handler answers to the request itself. *)
Lemma entry_answers_as_downstream
      (w : World) (r : Request) (n m : span) (req : CepRequest) (reqBody : bytes) :
  decode_stream (json_Decode_CepRequest w) (req_Body r) = Some req ->
  ServiceA.isValidCep (Cep req) = true ->
  json_Marshal_cep w (Cep req) = Some reqBody ->
  http_NewRequest w "POST" (serviceBURL w) = true ->
  json_Decode_CepRequest w reqBody = Some req ->
  written_status (events_of (ServiceA.handleCepRequest (with_downstream w) r) n)
  = written_status (events_of (ServiceB.handleWeatherRequest w r) m)
  /\ wire_body (with_downstream w)
       (events_of (ServiceA.handleCepRequest (with_downstream w) r) n)
     = wire_body w (events_of (ServiceB.handleWeatherRequest w r) m).
Proof.
  intros Hdec Hvalid Hmarshal Hnew Hround.
  destruct (serve_forwarded w r m req reqBody Hdec Hvalid Hround)
    as (c & Hc & Hrange & Hserve).
  destruct (handleWeatherRequest_answer w r m) as (c' & p & _ & Hs & Hb & Hcases).
  rewrite Hc in Hs. injection Hs as <-.
  assert (Hwire : wire_body w (events_of (ServiceB.handleWeatherRequest w r) m)
                  = render w p).
  { unfold wire_body. rewrite Hb. reflexivity. }
  rewrite Hwire in Hserve.
  rewrite (handleCepRequest_on_response (with_downstream w) r n req reqBody c _
             Hdec Hvalid Hmarshal Hnew
             (eq_trans (client_Do_with_downstream w reqBody) Hserve)).
  rewrite Hc, Hwire.
  destruct Hrange as [-> | [-> | ->]]; cbn.
  - split; reflexivity.
  - split; [reflexivity|].
    destruct Hcases as [[H _]|[_ ->]]; [discriminate H|]. reflexivity.
  - split; [reflexivity|].
    destruct Hcases as [[H _]|[_ ->]]; [discriminate H|]. reflexivity.
Qed.

(** X9. With the downstream handler at the other end, a request that can be
    forwarded (the request can be created; a validated code marshals to a
    body that decodes to it) is answered by the entry orchestrator with
    the very status and the very bytes the downstream orchestrator
    answers to the same request directly, errors included. *)
Theorem entry_is_transparent (w : World) (r : Request) (n m : span) :
  http_NewRequest w "POST" (serviceBURL w) = true ->
  (forall req,
      decode_stream (json_Decode_CepRequest w) (req_Body r) = Some req ->
      ServiceA.isValidCep (Cep req) = true ->
      exists reqBody,
        json_Marshal_cep w (Cep req) = Some reqBody
        /\ json_Decode_CepRequest w reqBody = Some req) ->
  let through := events_of (ServiceA.handleCepRequest (with_downstream w) r) n in
  let direct := events_of (ServiceB.handleWeatherRequest w r) m in
  written_status through = written_status direct
  /\ wire_body (with_downstream w) through = wire_body w direct.
Proof.
  intros Hnew Hround through direct. subst through direct.
  destruct (decode_stream (json_Decode_CepRequest w) (req_Body r)) as [req|] eqn:Hdec.
  - destruct (ServiceA.isValidCep (Cep req)) eqn:Hvalid.
    + destruct (Hround req eq_refl Hvalid) as (reqBody & Hmarshal & Hback).
      now apply (entry_answers_as_downstream w r n m req reqBody).
    + unfold_run. cbn. rewrite Hdec. cbn.
      change (ServiceB.isValidCep (Cep req)) with (ServiceA.isValidCep (Cep req)).
      rewrite Hvalid. cbn. split; reflexivity.
  - unfold_run. cbn. rewrite Hdec. cbn. split; reflexivity.
Qed.

Lemma entry_is_transparent_witness :
  written_status
    (events_of (ServiceA.handleCepRequest (with_downstream world_erro) request_ok) 0)
  = written_status (events_of (ServiceB.handleWeatherRequest world_erro request_ok) 5)
  /\ wire_body (with_downstream world_erro)
       (events_of (ServiceA.handleCepRequest (with_downstream world_erro) request_ok) 0)
     = wire_body world_erro
         (events_of (ServiceB.handleWeatherRequest world_erro request_ok) 5).
Proof.
  apply (entry_is_transparent world_erro request_ok 0 5 eq_refl).
  intros req Hreq _. injection Hreq as <-.
  exists (Demo.cep_body "01001000"). split; reflexivity.
Defined.

(** X10. A postal code the provider flags as not found is answered 404
    "can not find zipcode" at both layers, and any other failure of the
    location step and any failure of the weather step is answered 500
    "internal server error" at both layers. *)
Theorem provider_failures_surface_at_both_layers
        (w : World) (r : Request) (n m : span) (req : CepRequest) (reqBody : bytes) :
  decode_stream (json_Decode_CepRequest w) (req_Body r) = Some req ->
  ServiceA.isValidCep (Cep req) = true ->
  json_Marshal_cep w (Cep req) = Some reqBody ->
  http_NewRequest w "POST" (serviceBURL w) = true ->
  json_Decode_CepRequest w reqBody = Some req ->
  let through := events_of (ServiceA.handleCepRequest (with_downstream w) r) n in
  let direct := events_of (ServiceB.handleWeatherRequest w r) m in
  let both (code : Z) :=
    written_status direct = [code] /\ written_status through = [code]
    /\ written_body direct = error_body (fixed_message code)
    /\ written_body through = error_body (fixed_message code) in
  (forall err,
      resolve w (Cep req) = Err err ->
      both (if errors_Is err ServiceB.ErrCepNotFound then 404 else 500)%Z)
  /\ (forall city err,
         resolve w (Cep req) = Ok city -> fetch w city = Err err -> both 500%Z).
Proof.
  intros Hdec Hvalid Hmarshal Hnew Hround through direct both.
  assert (Hdirect :
            (forall err,
                resolve w (Cep req) = Err err ->
                written_status direct
                = [if errors_Is err ServiceB.ErrCepNotFound then 404 else 500]%Z)
            /\ (forall city err,
                   resolve w (Cep req) = Ok city -> fetch w city = Err err ->
                   written_status direct = [500%Z])).
  { subst direct. clear through both Hmarshal Hnew Hround.
    change (ServiceB.isValidCep (Cep req) = true) in Hvalid.
    split; intros; unfold resolve, fetch in *; unfold_run.
    all: rewrite Hdec in *; cbn in *; rewrite Hvalid in *; cbn in *.
    all: split_run; reflexivity. }
  assert (Hboth : forall code, (code = 404 \/ code = 500)%Z ->
                               written_status direct = [code] -> both code).
  { intros code Hcode Hs. subst both. cbv beta.
    destruct (serve_forwarded w r m req reqBody Hdec Hvalid Hround)
      as (c & Hc & _ & Hserve).
    fold direct in Hc, Hserve. rewrite Hs in Hc. injection Hc as <-.
    destruct (handleWeatherRequest_answer w r m) as (c' & p & _ & Hs' & Hb & Hcases).
    fold direct in Hs', Hb. rewrite Hs in Hs'. injection Hs' as <-.
    subst through.
    rewrite (handleCepRequest_on_response (with_downstream w) r n req reqBody code _
               Hdec Hvalid Hmarshal Hnew
               (eq_trans (client_Do_with_downstream w reqBody) Hserve)).
    rewrite Hb, Hs.
    destruct Hcases as [[H _]|[_ ->]]; [destruct Hcode; congruence|].
    destruct Hcode as [-> | ->]; repeat split; reflexivity. }
  destruct Hdirect as [Hresolve Hfetch]. split.
  - intros err Herr. apply Hboth; [|exact (Hresolve err Herr)].
    destruct (errors_Is err ServiceB.ErrCepNotFound); auto.
  - intros city err Hcity Herr. apply Hboth; [auto|exact (Hfetch city err Hcity Herr)].
Qed.

Lemma provider_failures_surface_witness :
  written_status
    (events_of (ServiceA.handleCepRequest (with_downstream world_erro) request_ok) 0)
  = [404%Z]
  /\ written_status
       (events_of (ServiceA.handleCepRequest (with_downstream world_no_weather) request_ok) 0)
     = [500%Z].
Proof.
  split.
  - destruct (provider_failures_surface_at_both_layers world_erro request_ok 0 0
                {| Cep := "01001000" |} (Demo.cep_body "01001000")
                eq_refl eq_refl eq_refl eq_refl eq_refl) as [H _].
    apply (H ServiceB.ErrCepNotFound eq_refl).
  - destruct (provider_failures_surface_at_both_layers world_no_weather request_ok 0 0
                {| Cep := "01001000" |} (Demo.cep_body "01001000")
                eq_refl eq_refl eq_refl eq_refl eq_refl) as [_ H].
    apply (H "Sao Paulo" (Wrap "error calling Weather API" (Foreign "net/http"))
             eq_refl eq_refl).
Defined.



Lemma entry_rejects_without_forwarding_witness :
  written_status
    (events_of (ServiceA.handleCepRequest world_ok (Demo.post (Demo.cep_body "123"))) 0)
  = [422%Z]
  /\ requests
       (events_of (ServiceA.handleCepRequest world_ok (Demo.post "{")) 0) = [].
Proof.
  split.
  - apply (entry_rejects_without_forwarding world_ok (Demo.post (Demo.cep_body "123")) 0).
    right. exists {| Cep := "123" |}. split; reflexivity.
  - apply (entry_rejects_without_forwarding world_ok (Demo.post "{") 0).
    left. reflexivity.
Defined.

Lemma entry_transport_failure_witness :
  written_status (events_of (ServiceA.handleCepRequest world_down request_ok) 0)
  = [500%Z]
  /\ written_status (events_of (ServiceA.handleCepRequest world_cut request_ok) 0)
     = [500%Z].
Proof.
  split.
  - apply (entry_transport_failure_is_internal world_down request_ok 0
             {| Cep := "01001000" |} eq_refl eq_refl).
    right. right. exists (Demo.cep_body "01001000"). split; [reflexivity|].
    left. reflexivity.
  - apply (entry_transport_failure_is_internal world_cut request_ok 0
             {| Cep := "01001000" |} eq_refl eq_refl).
    right. right. exists (Demo.cep_body "01001000"). split; [reflexivity|].
    right. exists 404%Z. reflexivity.
Defined.

(** X15. For a validated code the status the entry orchestrator answers
    tells the downstream status: it answers 200 with given bytes exactly
    when the downstream answered 200 with these bytes, 404 exactly when
    the downstream answered 404, and 422 exactly when the downstream
    answered 422 (each with a readable body). *)
Theorem entry_status_tells_the_downstream_status
        (w : World) (r : Request) (n : span) (req : CepRequest) :
  decode_stream (json_Decode_CepRequest w) (req_Body r) = Some req ->
  ServiceA.isValidCep (Cep req) = true ->
  let evs := events_of (ServiceA.handleCepRequest w r) n in
  let downstream_answered (status : Z) (body : bytes) :=
    exists reqBody,
      json_Marshal_cep w (Cep req) = Some reqBody
      /\ http_NewRequest w "POST" (serviceBURL w) = true
      /\ client_Do w "POST" (serviceBURL w) reqBody = Response status (Some body) in
  (forall body,
      (written_status evs = [200%Z] /\ written_body evs = [Raw body])
      <-> downstream_answered 200%Z body)
  /\ (written_status evs = [404%Z] <-> exists body, downstream_answered 404%Z body)
  /\ (written_status evs = [422%Z] <-> exists body, downstream_answered 422%Z body).
Proof.
  intros Hdec Hvalid evs downstream_answered. subst evs downstream_answered. cbv beta.
  assert (Hfail :
            forall evs : list event,
              written_status evs = [500%Z] ->
              (forall s b rb,
                  json_Marshal_cep w (Cep req) = Some rb ->
                  http_NewRequest w "POST" (serviceBURL w) = true ->
                  client_Do w "POST" (serviceBURL w) rb <> Response s (Some b)) ->
              (forall body,
                  written_status evs = [200%Z] /\ written_body evs = [Raw body] <->
                  (exists reqBody,
                      json_Marshal_cep w (Cep req) = Some reqBody /\
                      http_NewRequest w "POST" (serviceBURL w) = true /\
                      client_Do w "POST" (serviceBURL w) reqBody
                      = Response 200 (Some body)))
              /\ (written_status evs = [404%Z] <->
                  (exists body reqBody,
                      json_Marshal_cep w (Cep req) = Some reqBody /\
                      http_NewRequest w "POST" (serviceBURL w) = true /\
                      client_Do w "POST" (serviceBURL w) reqBody
                      = Response 404 (Some body)))
              /\ (written_status evs = [422%Z] <->
                  (exists body reqBody,
                      json_Marshal_cep w (Cep req) = Some reqBody /\
                      http_NewRequest w "POST" (serviceBURL w) = true /\
                      client_Do w "POST" (serviceBURL w) reqBody
                      = Response 422 (Some body)))).
  { intros evs H500 Hno. rewrite H500.
    split; [intros body|split]; (split; [intros H|intros H]).
    - destruct H as [H _]. discriminate H.
    - exfalso. destruct H as (rb & H1 & H2 & H3). exact (Hno _ _ _ H1 H2 H3).
    - discriminate H.
    - exfalso. destruct H as (b & rb & H1 & H2 & H3). exact (Hno _ _ _ H1 H2 H3).
    - discriminate H.
    - exfalso. destruct H as (b & rb & H1 & H2 & H3). exact (Hno _ _ _ H1 H2 H3). }
  destruct (json_Marshal_cep w (Cep req)) as [reqBody|] eqn:Hmarshal.
  2: { apply Hfail; [|discriminate].
       unfold_run. rewrite Hdec. cbn. rewrite Hvalid. cbn. rewrite Hmarshal.
       reflexivity. }
  destruct (http_NewRequest w "POST" (serviceBURL w)) eqn:Hnew.
  2: { apply Hfail; [|discriminate].
       unfold_run. rewrite Hdec. cbn. rewrite Hvalid. cbn. rewrite Hmarshal, Hnew.
       reflexivity. }
  destruct (client_Do w "POST" (serviceBURL w) reqBody) as [|status [body|]] eqn:Hdo.
  1, 3: apply Hfail;
    [ unfold_run; rewrite Hdec; cbn; rewrite Hvalid; cbn;
      rewrite Hmarshal, Hnew; cbn; rewrite Hdo; reflexivity
    | intros s b rb H _; injection H as <-; rewrite Hdo; discriminate ].
  clear Hfail.
  rewrite (handleCepRequest_on_response w r n req reqBody status body
             Hdec Hvalid Hmarshal Hnew Hdo).
  assert (Hex : forall s b,
             (exists reqBody0,
                 Some reqBody = Some reqBody0 /\ true = true
                 /\ client_Do w "POST" (serviceBURL w) reqBody0 = Response s (Some b))
             <-> status = s /\ body = b).
  { intros s b. split.
    - intros (rb & H & _ & H'). injection H as <-. rewrite Hdo in H'.
      injection H' as <- <-. split; reflexivity.
    - intros [<- <-]. exists reqBody. repeat split. exact Hdo. }
  assert (Hex' : forall s,
             (exists b reqBody0,
                 Some reqBody = Some reqBody0 /\ true = true
                 /\ client_Do w "POST" (serviceBURL w) reqBody0 = Response s (Some b))
             <-> status = s).
  { intros s. split.
    - intros (b & H). apply Hex in H. tauto.
    - intros <-. exists body. apply Hex. auto. }
  split; [|split].
  - intros b. rewrite Hex.
    destruct (Z.eqb_spec status 404) as [->|H404]; cbn.
    { split; intros [H _]; discriminate H. }
    destruct (Z.eqb_spec status 422) as [->|H422]; cbn.
    { split; intros [H _]; discriminate H. }
    destruct (Z.eqb_spec status 200) as [->|H200]; cbn.
    + split; [intros [_ H]; injection H as <-; auto | intros [_ <-]; auto].
    + split; [intros [H _]; discriminate H | intros [H _]; congruence].
  - rewrite Hex'.
    destruct (Z.eqb_spec status 404) as [->|H404]; cbn; [tauto|].
    destruct (Z.eqb_spec status 422) as [->|H422]; cbn.
    { split; [discriminate | congruence]. }
    destruct (Z.eqb_spec status 200) as [->|H200]; cbn;
      (split; [discriminate | congruence]).
  - rewrite Hex'.
    destruct (Z.eqb_spec status 404) as [->|H404]; cbn.
    { split; [discriminate | congruence]. }
    destruct (Z.eqb_spec status 422) as [->|H422]; cbn; [tauto|].
    destruct (Z.eqb_spec status 200) as [->|H200]; cbn;
      (split; [discriminate | congruence]).
Qed.

Lemma entry_status_tells_witness :
  written_status (events_of (ServiceA.handleCepRequest world_404 request_ok) 0) = [404%Z].
Proof.
  apply (entry_status_tells_the_downstream_status world_404 request_ok 0
           {| Cep := "01001000" |} eq_refl eq_refl).
  exists "". exists (Demo.cep_body "01001000"). repeat split.
Defined.

(** ** Start-up *)

Ltac run_startup :=
  unfold ServiceA_main.main, ServiceB_main.main,
    ServiceA_main.initTracer, ServiceB_main.initTracer, initTracer_named,
    tracer_ready, grpc_Dial, listenAndServe, shutdown, log_Fatalf,
    deferP, bindP, emitP, retP in *.

Ltac split_host :=
  match goal with
  | |- context [grpc_DialContext ?h ?t] => destruct (grpc_DialContext h t) eqn:?
  | |- context [otlptracegrpc_New ?h] => destruct (otlptracegrpc_New h) eqn:?
  | |- context [resource_New ?h] => destruct (resource_New h) eqn:?
  | |- context [tp_Shutdown ?h] => destruct (tp_Shutdown h) eqn:?
  | |- context [http_ListenAndServe ?h ?a] => destruct (http_ListenAndServe h a) eqn:?
  end.

Ltac split_startup := run_startup; repeat (cbn in *; split_host); cbn in *.

(** X12. In both services [initTracer] assigns the global tracer and
    returns a provider exactly when dialling the collector, creating the
    exporter and creating the resource all succeed; otherwise it returns
    the error of the first step that failed, wrapped with that step's
    message, without attempting the later steps; it can block only in the
    dial and never exits the process. *)
Theorem initTracer_sets_the_tracer_only_on_success (h : Host) (collectorURL : string) :
  initTracer_contract "service-a" collectorURL h (ServiceA_main.initTracer h collectorURL)
  /\ initTracer_contract "service-b" collectorURL h
       (ServiceB_main.initTracer h collectorURL).
Proof.
  unfold initTracer_contract. split; split_startup.
  all: repeat split; try reflexivity; try discriminate; intros.
  all: try match goal with H : exists _, _ |- _ => destruct H as [? H] end.
  all: try discriminate; try (eexists; reflexivity).
  all: try match goal with H : Returned _ = Returned _ |- _ => injection H as <- end.
  all: try match goal with H : Blocked _ = Blocked _ |- _ => injection H as <- end.
  all: auto.
Qed.

(** X13. In both services [main] never returns and never runs the deferred
    shutdown of the tracer provider: it exits with status 1 (the tracer
    cannot be initialised, or [ListenAndServe] returns) or serves for ever
    (or waits for the collector for ever). The route is registered and the
    socket opened only once the tracer is ready. *)
Theorem main_serves_or_exits_and_never_shuts_the_tracer_down
        (h : Host) (default_weatherApiKey : string) :
  main_contract h "/cep" "8080" (ServiceA_main.main h)
  /\ main_contract h "/weather" "8081" (ServiceB_main.main h default_weatherApiKey).
Proof.
  unfold main_contract. split; split_startup.
  all: repeat split; try reflexivity; try discriminate; intros.
  all: try match goal with H : Exited _ = Exited _ |- _ => injection H as <- end.
  all: try reflexivity.
  all: try match goal with H : _ /\ _ |- _ => destruct H end.
  all: try discriminate; try congruence.
Qed.

(** X14. The configuration comes from the environment: each of
    SERVICE_B_URL, WEATHER_API_KEY, OTEL_COLLECTOR_URL and PORT is used as
    set, the empty string included, and its fallback is used only when the
    variable is not set at all; the listening address is the port after a
    colon. *)
Theorem configuration_comes_from_the_environment
        (h : Host) (default_weatherApiKey : string) :
  let set (key fallback value : string) :=
    match os_LookupEnv h key with
    | Some v => value = v
    | None => value = fallback
    end in
  (forall value,
      In (GlobalAssigned "serviceBURL" value) (fst (ServiceA_main.main h))
      <-> set "SERVICE_B_URL" "http://serviceb:8081/weather" value)
  /\ (forall value,
         In (GlobalAssigned "weatherApiKey" value)
            (fst (ServiceB_main.main h default_weatherApiKey))
         <-> set "WEATHER_API_KEY" default_weatherApiKey value)
  /\ (forall target,
         In (GrpcDial target) (fst (ServiceA_main.main h))
         <-> set "OTEL_COLLECTOR_URL" "otel-collector:4317" target)
  /\ (forall addr,
         In (ListenAndServe addr) (fst (ServiceA_main.main h)) ->
         exists port, addr = ":" ++ port /\ set "PORT" "8080" port)
  /\ (forall addr,
         In (ListenAndServe addr) (fst (ServiceB_main.main h default_weatherApiKey)) ->
         exists port, addr = ":" ++ port /\ set "PORT" "8081" port).
Proof.
  intros set. subst set. cbv beta. unfold getEnv.
  repeat match goal with |- _ /\ _ => split end; intros x.
  all: run_startup; unfold getEnv.
  all: repeat match goal with
         | |- context [os_LookupEnv ?h ?k] => destruct (os_LookupEnv h k) eqn:?
         end.
  all: repeat (cbn in *; split_host); cbn in *.
  all: try (split; intros H).
  all: try intros H.
  all: repeat match goal with
         | H : _ \/ _ |- _ => destruct H as [H|H]
         | H : False |- _ => destruct H
         end.
  all: try discriminate.
  all: try match goal with H : GlobalAssigned _ _ = GlobalAssigned _ _ |- _ =>
             injection H as <- end.
  all: try match goal with H : GrpcDial _ = GrpcDial _ |- _ => injection H as <- end.
  all: try match goal with H : ListenAndServe _ = ListenAndServe _ |- _ =>
             injection H as <- end.
  all: try reflexivity.
  all: try (subst; left; reflexivity).
  all: try (subst; right; left; reflexivity).
  all: try (eexists; split; reflexivity).
Qed.
